(** * Phantom-Wallet: the session lifecycle of the UI layer

    A shallow embedding of the event handlers and effects of

      - [src/components/ConnectButton.tsx]  (direct provider buttons),
      - [src/unnamed/part_000]              (the modal variant of ConnectButton),
      - [src/app/index.tsx]                 (HomeScreen and the WalletInfo dashboard),

    and the properties of the specification that concern them.

    The handlers are [async] functions: they run synchronously up to an
    [await] of a call into the wallet SDK (or the balance RPC helper), are
    suspended there, and are resumed when the call settles.  They are
    embedded as terms of a small free monad [Proc] whose constructors are the
    things the handlers do: set a piece of React state, perform a UI effect
    (alert, console, router, modal), await an external call, throw. *)

From Stdlib Require Import String Ascii List Bool Arith Lia ZArith.
From Stdlib Require Import DecimalString DecimalPos DecimalZ Floats.
Import ListNotations.
Open Scope string_scope.

(* ================================================================== *)
(** ** JavaScript values the handlers look at *)

Module JS.

(** [s.includes(sub)] *)
Fixpoint includes (s sub : string) : bool :=
  if String.prefix sub s then true
  else match s with
       | EmptyString => false
       | String _ s' => includes s' sub
       end.

(** [s.slice(0, n)] *)
Definition slice0 (n : nat) (s : string) : string := String.substring 0 n s.

(** [s.slice(-n)]: the last [n] characters, all of [s] when it is shorter. *)
Definition slice_last (n : nat) (s : string) : string :=
  String.substring (String.length s - n) n s.

(** A thrown value as the [catch] clauses read it: [error?.message].
    The SDK rejects with an error carrying a human-readable message; the
    message may be missing. *)
Record Error : Type := mkError { message : option string }.

(** What [catch (error: any)] binds: [None] is a thrown [null]/[undefined]. *)
Definition Thrown : Type := option Error.

(** [error?.message] *)
Definition message_of (error : Thrown) : option string :=
  match error with
  | Some e => message e
  | None => None
  end.

(** Truthiness of a [string | undefined] *)
Definition truthy (v : option string) : bool :=
  match v with
  | Some (String _ _) => true
  | _ => false
  end.

(** [v || fallback] on a [string | undefined] *)
Definition or_else (v : option string) (fallback : string) : string :=
  match v with
  | Some (String c s) => String c s
  | _ => fallback
  end.

(** [error?.message?.includes(sub)] : [None] is [undefined]. *)
Definition opt_includes (v : option string) (sub : string) : option bool :=
  match v with
  | Some s => Some (includes s sub)
  | None => None
  end.

(** [!x] on a [boolean | undefined] *)
Definition not_ (v : option bool) : bool :=
  match v with
  | Some true => false
  | _ => true
  end.

(** Truthiness of an [object | undefined] *)
Definition present {A : Type} (v : option A) : bool :=
  match v with
  | Some _ => true
  | None => false
  end.

(** [`${n}`] for an integer *)
Definition string_of_Z (n : Z) : string := NilZero.string_of_int (Z.to_int n).

End JS.

(* ================================================================== *)
(** ** Effects, external calls and asynchronous procedures *)

(** [type AuthProvider = 'google' | 'apple'] *)
Inductive AuthProvider : Type := google | apple.

(** The result of [solana.signMessage]: an object with a [signature]. *)
Record SignedMessage : Type := mkSigned { signature : string }.

(** Synchronous effects on the collaborators of the UI. *)
Inductive Effect : Type :=
| Alert_alert (title text : string)
| console_error (label : string) (error : JS.Thrown)
| router_push (path : string)
| router_replace (path : string)
| modal_open
| Linking_openURL (url : string).

(** Asynchronous calls, indexed by the type they resolve to. *)
Inductive Call : Type -> Type :=
| connect (provider : AuthProvider) : Call unit
| disconnect : Call unit
| solana_signMessage (msg : string) : Call SignedMessage
| ethereum_signPersonalMessage (msg address : string) : Call string
| getBalance (address : string) : Call float
| copyToClipboard (text : string) : Call unit.

(** How a promise settles. *)
Inductive Outcome (R : Type) : Type :=
| Resolved (v : R)
| Rejected (error : JS.Thrown).
Arguments Resolved {R} v.
Arguments Rejected {R} error.

(** How the environment answers the calls. *)
Definition Oracle : Type := forall R, Call R -> Outcome R.

Definition rejecting (error : JS.Thrown) : Oracle := fun _ _ => Rejected error.

Module Async.

(** A procedure over component state [S] returning [A]. *)
Inductive Proc (S A : Type) : Type :=
| Ret (a : A)
| Throw (error : JS.Thrown)
| SetState (f : S -> S) (k : Proc S A)
| Emit (e : Effect) (k : Proc S A)
| Await {R : Type} (c : Call R) (k : Outcome R -> Proc S A).
Arguments Ret {S A} a.
Arguments Throw {S A} error.
Arguments SetState {S A} f k.
Arguments Emit {S A} e k.
Arguments Await {S A R} c k.

Fixpoint bind {S A B} (p : Proc S A) (f : A -> Proc S B) : Proc S B :=
  match p with
  | Ret a => f a
  | Throw e => Throw e
  | SetState g k => SetState g (bind k f)
  | Emit e k => Emit e (bind k f)
  | Await c k => Await c (fun o => bind (k o) f)
  end.

(** [try { body } catch (error) { handler error }] *)
Fixpoint try_catch {S A} (body : Proc S A) (handler : JS.Thrown -> Proc S A)
  : Proc S A :=
  match body with
  | Ret a => Ret a
  | Throw e => handler e
  | SetState g k => SetState g (try_catch k handler)
  | Emit e k => Emit e (try_catch k handler)
  | Await c k => Await c (fun o => try_catch (k o) handler)
  end.

(** [try { body } finally { fin }]: [fin] runs on both exits; if [fin]
    itself throws, that exception replaces the body's completion. *)
Fixpoint try_finally {S A} (body : Proc S A) (fin : Proc S unit) : Proc S A :=
  match body with
  | Ret a => bind fin (fun _ => Ret a)
  | Throw e => bind fin (fun _ => Throw e)
  | SetState g k => SetState g (try_finally k fin)
  | Emit e k => Emit e (try_finally k fin)
  | Await c k => Await c (fun o => try_finally (k o) fin)
  end.

Definition set {S} (f : S -> S) : Proc S unit := SetState f (Ret tt).
Definition emit {S} (e : Effect) : Proc S unit := Emit e (Ret tt).
Definition skip {S} : Proc S unit := Ret tt.

(** [await c]: the value the call resolves to; a rejection is thrown. *)
Definition await {S R} (c : Call R) : Proc S R :=
  Await c (fun o => match o with
                    | Resolved v => Ret v
                    | Rejected e => Throw e
                    end).

(** How an invocation ends. *)
Inductive Completion (A : Type) : Type :=
| Normal (a : A)
| Uncaught (error : JS.Thrown).
Arguments Normal {A} a.
Arguments Uncaught {A} error.

(** Running a procedure until it completes or reaches an [await]. *)
Inductive Result (S A : Type) : Type :=
| Done (c : Completion A) (st : S) (trace : list Effect)
| Paused {R : Type} (c : Call R) (k : Outcome R -> Proc S A)
         (st : S) (trace : list Effect).
Arguments Done {S A} c st trace.
Arguments Paused {S A R} c k st trace.

Definition emitted {S A} (e : Effect) (r : Result S A) : Result S A :=
  match r with
  | Done c st tr => Done c st (e :: tr)
  | Paused c k st tr => Paused c k st (e :: tr)
  end.

Fixpoint run {S A} (p : Proc S A) (st : S) : Result S A :=
  match p with
  | Ret a => Done (Normal a) st []
  | Throw e => Done (Uncaught e) st []
  | SetState g k => run k (g st)
  | Emit e k => emitted e (run k st)
  | Await c k => Paused c k st []
  end.

(** The state and the effects so far. *)
Definition state {S A} (r : Result S A) : S :=
  match r with
  | Done _ st _ => st
  | Paused _ _ st _ => st
  end.

Definition trace {S A} (r : Result S A) : list Effect :=
  match r with
  | Done _ _ tr => tr
  | Paused _ _ _ tr => tr
  end.

Definition pending {S A} (r : Result S A) : bool :=
  match r with
  | Done _ _ _ => false
  | Paused _ _ _ _ => true
  end.

Definition completion {S A} (r : Result S A) : option (Completion A) :=
  match r with
  | Done c _ _ => Some c
  | Paused _ _ _ _ => None
  end.

Fixpoint emitted_all {S A} (es : list Effect) (r : Result S A) : Result S A :=
  match es with
  | [] => r
  | e :: es' => emitted e (emitted_all es' r)
  end.

(** Resuming a suspended invocation: the awaited call settles as the
    oracle says.  Between the suspension and the resumption other handlers
    may have run: [between] is what they did to the component state. *)
Definition resume {S A} (env : Oracle) (between : S -> S) (r : Result S A)
  : Result S A :=
  match r with
  | Done c st _ => Done c st []
  | Paused c k st _ => run (k (env _ c)) (between st)
  end.

(** One invocation of a handler with a single [await], from the press to
    the end of its continuation, with all the effects it had. *)
Definition attempt {S A} (env : Oracle) (between : S -> S) (p : Proc S A) (st : S)
  : Result S A :=
  emitted_all (trace (run p st)) (resume env between (run p st)).

(** The call a suspended invocation is waiting for. *)
Inductive AnyCall : Type :=
| anyCall {R : Type} (c : Call R).

Definition awaiting {S A} (r : Result S A) : option AnyCall :=
  match r with
  | Done _ _ _ => None
  | Paused c _ _ _ => Some (anyCall c)
  end.

End Async.

Notation "x <- p ;; q" := (Async.bind p (fun x => q))
  (at level 61, p at next level, right associativity).
Notation "p ;; q" := (Async.bind p (fun _ => q))
  (at level 61, right associativity).

(** The effects of one kind in a trace. *)
Definition alerts (tr : list Effect) : list (string * string) :=
  flat_map (fun e => match e with Alert_alert t m => [(t, m)] | _ => [] end) tr.

Definition navigations (tr : list Effect) : list Effect :=
  filter (fun e => match e with router_push _ | router_replace _ => true | _ => false end) tr.

Definition pushes (tr : list Effect) : list string :=
  flat_map (fun e => match e with router_push p => [p] | _ => [] end) tr.

Definition logged (tr : list Effect) : list (string * JS.Thrown) :=
  flat_map (fun e => match e with console_error l x => [(l, x)] | _ => [] end) tr.

(* ================================================================== *)
(** ** [src/components/ConnectButton.tsx]: the provider buttons *)

Module ConnectButton.
Import Async.

(** The component's [useState] cells. *)
Record State : Type := mkState {
  activeProvider : option AuthProvider;
  userError : option string
}.

Definition initial : State := mkState None None.

Definition setActiveProvider (v : option AuthProvider) : Proc State unit :=
  set (fun st => mkState v (userError st)).

Definition setUserError (v : option string) : Proc State unit :=
  set (fun st => mkState (activeProvider st) v).

(** [handleConnect], lines 35-51. *)
Definition handleConnect (provider : AuthProvider) : Proc State unit :=
  setActiveProvider (Some provider) ;;
  setUserError None ;;
  try_finally
    (try_catch
       (await (connect provider) ;;
        emit (router_push "/wallet"))
       (fun error =>
          emit (console_error "Connection failed:" error) ;;
          match JS.message_of error with
          | Some m =>
              if JS.truthy (Some m) && negb (JS.includes m "cancelled")
              then setUserError (Some m) ;;
                   emit (Alert_alert "Connection Failed" m)
              else skip
          | None => skip
          end))
    (setActiveProvider None).

(** What the hooks [useConnect] and [useAccounts] report at a render. *)
Record Hooks : Type := mkHooks {
  isConnecting : bool;
  isConnected : bool
}.

(** What is on screen, lines 53-99: nothing once connected; otherwise the two
    buttons (disabled, and which one spins) and the inline error text. *)
Record View : Type := mkView {
  googleDisabled : bool;
  googleSpinner : bool;
  appleDisabled : bool;
  appleSpinner : bool;
  errorText : option string
}.

Definition spins (p : AuthProvider) (h : Hooks) (st : State) : bool :=
  match activeProvider st, p with
  | Some google, google | Some apple, apple => isConnecting h
  | _, _ => false
  end.

(** [{userError && (<Text>Error: {userError}</Text>)}], lines 93-97. *)
Definition errorLine (st : State) : option string :=
  if JS.truthy (userError st)
  then Some ("Error: " ++ JS.or_else (userError st) EmptyString)
  else None.

Definition render (h : Hooks) (st : State) : option View :=
  if isConnected h then None
  else Some {|
    googleDisabled := isConnecting h;
    googleSpinner := spins google h st;
    appleDisabled := isConnecting h;
    appleSpinner := spins apple h st;
    errorText := errorLine st
  |}.

(** The status of the connect attempt as the component shows it. *)
Inductive Status : Type := idle | pending.

Definition status (h : Hooks) (st : State) : Status :=
  match activeProvider st with
  | Some _ => if isConnecting h then pending else idle
  | None => idle
  end.

(** *** The component with the SDK behind it

    [useConnect] reports [isConnecting] from the moment [connect] is called
    until it settles; [useAccounts] reports [isConnected] once a [connect]
    has resolved.  The world is the component's state, these two flags, the
    suspended invocations of [handleConnect], and everything the user has
    been shown so far. *)
Record World : Type := mkWorld {
  ui : State;
  hooks : Hooks;
  inflight : list (Result State unit);
  shown : list Effect
}.

Definition start : World := mkWorld initial (mkHooks false false) [] [].

(** Is the button of [provider] there to be pressed? *)
Definition pressable (provider : AuthProvider) (w : World) : bool :=
  match render (hooks w) (ui w), provider with
  | Some v, google => negb (googleDisabled v)
  | Some v, apple => negb (appleDisabled v)
  | None, _ => false
  end.

(** [onPress={() => handleConnect(provider)}] *)
Definition press (provider : AuthProvider) (w : World) : World :=
  if pressable provider w then
    let r := run (handleConnect provider) (ui w) in
    if Async.pending r
    then mkWorld (state r) (mkHooks true (isConnected (hooks w)))
                 (inflight w ++ [r]) (shown w ++ trace r)
    else mkWorld (state r) (hooks w) (inflight w) (shown w ++ trace r)
  else w.

Definition resolves {S A} (env : Oracle) (r : Result S A) : bool :=
  match r with
  | Paused c _ _ _ => match env _ c with Resolved _ => true | Rejected _ => false end
  | Done _ _ _ => false
  end.

(** The oldest outstanding [connect] settles as [env] says. *)
Definition settle (env : Oracle) (w : World) : World :=
  match inflight w with
  | [] => w
  | r :: rest =>
      let r' := resume env (fun _ => ui w) r in
      mkWorld (state r')
              (mkHooks false (isConnected (hooks w) || resolves env r))
              (if Async.pending r' then rest ++ [r'] else rest)
              (shown w ++ trace r')
  end.

Inductive Event : Type :=
| Press (provider : AuthProvider)
| Settle (env : Oracle).

Definition step (ev : Event) (w : World) : World :=
  match ev with
  | Press p => press p w
  | Settle env => settle env w
  end.

Inductive Reachable : World -> Prop :=
| reach_start : Reachable start
| reach_step : forall w ev, Reachable w -> Reachable (step ev w).

(** The connect attempts that are pending. *)
Definition pendingAttempts (w : World) : nat := length (inflight w).

(** An alert the component may raise: titled "Connection Failed", with a
    message that is not empty and does not contain the cancellation marker. *)
Definition honest (a : string * string) : Prop :=
  fst a = "Connection Failed"
  /\ snd a <> EmptyString
  /\ JS.includes (snd a) "cancelled" = false.

(** What holds of the component after any sequence of presses and
    settlements: either no attempt is outstanding, no provider is active and
    the SDK is not connecting; or exactly one invocation of [handleConnect]
    is suspended at its [connect], its provider is the active one, and the
    SDK is connecting. *)
Definition Quiet (w : World) : Prop :=
  inflight w = [] /\ activeProvider (ui w) = None /\ isConnecting (hooks w) = false.

Definition Busy (w : World) : Prop :=
  exists provider st,
    inflight w = [Async.run (handleConnect provider) st]
    /\ activeProvider (ui w) = Some provider
    /\ isConnecting (hooks w) = true.

End ConnectButton.

(* ================================================================== *)
(** ** The timers of the JavaScript event loop *)

Module Timers.
Local Open Scope nat_scope.

(** A pending [setTimeout]: its handle, the time it is due (ms), and the
    callback, a procedure without component state. *)
Record Timer : Type := mkTimer {
  handle : nat;
  due : nat;
  callback : Async.Proc unit unit
}.

(** The clock (ms), the next handle, and the pending timers, earliest first. *)
Record Loop : Type := mkLoop {
  now : nat;
  nextHandle : nat;
  queue : list Timer
}.

(** A timer is queued behind those that are due no later than it. *)
Fixpoint enqueue (t : Timer) (q : list Timer) : list Timer :=
  match q with
  | [] => [t]
  | u :: q' => if due u <=? due t then u :: enqueue t q' else t :: u :: q'
  end.

(** [setTimeout(callback, delay)] *)
Definition setTimeout (cb : Async.Proc unit unit) (delay : nat) (l : Loop)
  : nat * Loop :=
  (nextHandle l,
   mkLoop (now l) (S (nextHandle l))
          (enqueue (mkTimer (nextHandle l) (now l + delay) cb) (queue l))).

(** [clearTimeout(id)] *)
Definition clearTimeout (id : nat) (l : Loop) : Loop :=
  mkLoop (now l) (nextHandle l)
         (filter (fun t => negb (handle t =? id)) (queue l)).

(** What running the callbacks of the timers does. *)
Definition fire (ts : list Timer) : list Effect :=
  flat_map (fun t => Async.trace (Async.run (callback t) tt)) ts.

(** [dt] ms go by: the timers that are due by then fire, in order. *)
Definition elapse (dt : nat) (l : Loop) : list Effect * Loop :=
  let t' := now l + dt in
  (fire (filter (fun t => due t <=? t') (queue l)),
   mkLoop t' (nextHandle l) (filter (fun t => negb (due t <=? t')) (queue l))).

End Timers.

(* ================================================================== *)
(** ** [src/unnamed/part_000]: ConnectButton, the modal variant *)

Module ModalConnectButton.
Import Async.
Local Open Scope nat_scope.

(** What [useAccounts] and [useModal] report when the component mounts. *)
Record Hooks : Type := mkHooks {
  isConnected : bool;
  isOpened : bool
}.

(** The callback of the timer, lines 28-30: [() => { modal.open(); }] *)
Definition openModal : Proc unit unit := emit modal_open.

(** The body of the mount effect ([useEffect(..., [])]), lines 25-33: the
    loop after it, and the timer its cleanup function clears, if it
    returned one. *)
Definition autoOpen (h : Hooks) (l : Timers.Loop) : Timers.Loop * option nat :=
  if negb (isConnected h) && negb (isOpened h) then
    let (timer, l') := Timers.setTimeout openModal 500 l in
    (l', Some timer)
  else (l, None).

(** The mounted component: the event loop, the cleanup of the effect, and
    the calls made on the modal and the other collaborators. *)
Record World : Type := mkWorld {
  loop : Timers.Loop;
  mounted : bool;
  cleanup : option nat;
  calls : list Effect
}.

(** Before the view exists: the clock reads [t0], no timer is pending. *)
Definition boot (t0 id0 : nat) : World :=
  mkWorld (Timers.mkLoop t0 id0 []) false None [].

Definition mount (h : Hooks) (w : World) : World :=
  let (l, c) := autoOpen h (loop w) in
  mkWorld l true c (calls w).

(** Teardown runs the cleanup function of the effect. *)
Definition unmount (w : World) : World :=
  mkWorld (match cleanup w with
           | Some timer => Timers.clearTimeout timer (loop w)
           | None => loop w
           end)
          false None (calls w).

Definition elapse (dt : nat) (w : World) : World :=
  let (fired, l) := Timers.elapse dt (loop w) in
  mkWorld l (mounted w) (cleanup w) (calls w ++ fired).

(** The button, line 45: [onPress={() => modal.open()}] *)
Definition pressLogin (w : World) : World :=
  if mounted w
  then mkWorld (loop w) (mounted w) (cleanup w)
               (calls w ++ trace (run openModal tt))
  else w.

Definition elapses (dts : list nat) (w : World) : World :=
  fold_left (fun w dt => elapse dt w) dts w.

(** How many times [modal.open()] has been called. *)
Definition opens (w : World) : nat :=
  length (filter (fun e => match e with modal_open => true | _ => false end)
                 (calls w)).

(** When the pending timers are due. *)
Definition scheduled (w : World) : list nat :=
  map Timers.due (Timers.queue (loop w)).

Definition total (dts : list nat) : nat := fold_right Nat.add 0 dts.

(** The view mounted while disconnected with the modal closed. *)
Definition fresh (t0 id0 : nat) : World := mount (mkHooks false false) (boot t0 id0).

End ModalConnectButton.

(* ================================================================== *)
(** ** Navigation *)

Module Router.

(** Modelled from the spec: the router of the application (expo-router,
    not part of the sources): [push] is reversible, it keeps the view it
    leaves on the back stack; [replace] is not, it puts the target in the
    place of the current view. *)
Record Nav : Type := mkNav {
  current : string;
  back : list string
}.

Definition apply (n : Nav) (e : Effect) : Nav :=
  match e with
  | router_push p => mkNav p (current n :: back n)
  | router_replace p => mkNav p (back n)
  | _ => n
  end.

Definition applyAll (tr : list Effect) (n : Nav) : Nav := fold_left apply tr n.

(** The two views.  [src/app/index.tsx] is the route ["/"]; the dashboard
    [WalletInfo] is what the route ["/wallet"] shows. *)
Inductive Screen : Type := Home | Wallet.

Definition path (s : Screen) : string :=
  match s with
  | Home => "/"
  | Wallet => "/wallet"
  end.

Definition screenAt (p : string) : option Screen :=
  if String.eqb p "/" then Some Home
  else if String.eqb p "/wallet" then Some Wallet
  else None.

(** Where the session signal wants the user to be. *)
Definition target (connected : bool) : Screen :=
  if connected then Wallet else Home.

End Router.

(* ================================================================== *)
(** ** [src/app/index.tsx], first part: HomeScreen *)

Module HomeScreen.
Import Async.

(** The redirect effect ([useEffect(..., [isConnected])]), lines 21-25. *)
Definition redirect (isConnected : bool) : Proc unit unit :=
  if isConnected then emit (router_replace "/wallet") else skip.

(** [handleExploreDocs], lines 27-29. *)
Definition handleExploreDocs : Proc unit unit :=
  emit (Linking_openURL "https://docs.phantom.com").

End HomeScreen.

(* ================================================================== *)
(** ** [src/app/index.tsx], second part: the WalletInfo dashboard *)

(** Modelled from the spec: the chain types of the SDK's [AddressType]
    enumeration (declared in the SDK, not in the sources), written as the
    spec writes them. *)
Module AddressType.
Definition solana : string := "solana".
Definition ethereum : string := "ethereum".
End AddressType.

Module WalletInfo.
Import Async.

(** An entry of [addresses]. *)
Record AddressEntry : Type := mkAddress {
  addressType : string;
  address : string
}.

(** A per-chain capability object of the SDK ([solana], [ethereum]). *)
Inductive Signer : Type := signer.

(** What the hooks report at a render, lines 122-125. *)
Record Hooks : Type := mkHooks {
  addresses : option (list AddressEntry);
  isConnected : bool;
  walletId : option string;
  isDisconnecting : bool;
  solana : option Signer;
  isSolanaAvailable : bool;
  ethereum : option Signer;
  isEthereumAvailable : bool
}.

(** The component's [useState] cells, lines 129-131. *)
Record State : Type := mkState {
  solBalance : option float;
  isLoadingBalance : bool;
  isSigning : bool
}.

Definition initial : State := mkState None false false.

Definition setSolBalance (v : option float) : Proc State unit :=
  set (fun st => mkState v (isLoadingBalance st) (isSigning st)).

Definition setIsLoadingBalance (v : bool) : Proc State unit :=
  set (fun st => mkState (solBalance st) v (isSigning st)).

Definition setIsSigning (v : bool) : Proc State unit :=
  set (fun st => mkState (solBalance st) (isLoadingBalance st) v).

(** [addresses?.find(addr => addr.addressType === chainType)], lines 133-134. *)
Definition selectAccount (addrs : option (list AddressEntry)) (chainType : string)
  : option AddressEntry :=
  match addrs with
  | Some l => find (fun addr => String.eqb (addressType addr) chainType) l
  | None => None
  end.

Definition solanaAccount (h : Hooks) : option AddressEntry :=
  selectAccount (addresses h) AddressType.solana.

Definition ethereumAccount (h : Hooks) : option AddressEntry :=
  selectAccount (addresses h) AddressType.ethereum.

(** [account?.address] *)
Definition address_of (account : option AddressEntry) : option string :=
  option_map address account.

(** The redirect effect ([useEffect(..., [isConnected])]), lines 137-141. *)
Definition redirect (connected : bool) : Proc State unit :=
  if negb connected then emit (router_replace "/") else skip.

(** [fetchBalance], lines 150-160. *)
Definition fetchBalance (addr : string) : Proc State unit :=
  setIsLoadingBalance true ;;
  try_finally
    (try_catch
       (bal <- await (getBalance addr) ;;
        setSolBalance (Some bal))
       (fun error => emit (console_error "Failed to fetch balance:" error)))
    (setIsLoadingBalance false).

(** The balance effect ([useEffect(..., [solanaAccount?.address])]), lines 144-148. *)
Definition balanceEffect (h : Hooks) : Proc State unit :=
  match address_of (solanaAccount h) with
  | Some a => if JS.truthy (Some a) then fetchBalance a else skip
  | None => skip
  end.

(** [handleCopy], lines 162-165. *)
Definition handleCopy (addr chain : string) : Proc State unit :=
  await (copyToClipboard addr) ;;
  emit (Alert_alert "Copied!" (chain ++ " address copied to clipboard")).

(** The message that is signed; [time] is what [Date.now()] returns. *)
Definition greeting (time : Z) : string :=
  "Hello from Phantom SDK! Timestamp: " ++ JS.string_of_Z time.

(** The [catch] clause of both sign handlers, lines 174-178 and 190-194. *)
Definition signFailed (error : JS.Thrown) : Proc State unit :=
  if JS.not_ (JS.opt_includes (JS.message_of error) "cancelled")
  then emit (Alert_alert "Error" (JS.or_else (JS.message_of error) "Signing failed"))
  else skip.

(** [handleSignSolanaMessage], lines 167-181. *)
Definition handleSignSolanaMessage (h : Hooks) (time : Z) : Proc State unit :=
  if negb (isSolanaAvailable h) || negb (JS.present (solana h))
  then skip
  else
    setIsSigning true ;;
    try_finally
      (try_catch
         (sig <- await (solana_signMessage (greeting time)) ;;
          emit (Alert_alert "Signed! ✓"
                  ("Signature: " ++ JS.slice0 16 (signature sig) ++ "...")))
         signFailed)
      (setIsSigning false).

(** Reading [.address] of an account that is not there. *)
Definition typeError : JS.Thrown :=
  Some (JS.mkError (Some "Cannot read property 'address' of undefined")).

(** [handleSignEthereumMessage], lines 183-197. *)
Definition handleSignEthereumMessage (h : Hooks) (time : Z) : Proc State unit :=
  if negb (isEthereumAvailable h) || negb (JS.present (ethereum h))
     || negb (JS.truthy (address_of (ethereumAccount h)))
  then skip
  else
    setIsSigning true ;;
    try_finally
      (try_catch
         (match ethereumAccount h with
          | Some account =>
              sig <- await (ethereum_signPersonalMessage (greeting time)
                                                         (address account)) ;;
              emit (Alert_alert "Signed! ✓"
                      ("Signature: " ++ JS.slice0 16 sig ++ "..."))
          | None => Throw typeError
          end)
         signFailed)
      (setIsSigning false).

(** [handleDisconnect], lines 199-206. *)
Definition handleDisconnect : Proc State unit :=
  try_catch
    (await disconnect ;;
     emit (router_replace "/"))
    (fun error => emit (console_error "Disconnect failed:" error)).

(** *** What is on screen *)

Inductive Chain : Type := Solana | Ethereum.

(** The loading view, lines 213-220. *)
Definition loading (h : Hooks) : bool :=
  negb (JS.present (solanaAccount h)) && negb (JS.present (ethereumAccount h)).

(** Is the card of the chain shown (lines 242 and 289)? *)
Definition cardShown (c : Chain) (h : Hooks) : bool :=
  negb (loading h)
  && match c with
     | Solana => JS.present (solanaAccount h)
     | Ethereum => JS.present (ethereumAccount h)
     end.

(** The wallet identifier in the header, lines 228-230:
    [{walletId && (<Text>{walletId.slice(0, 8)}...{walletId.slice(-4)}</Text>)}].
    The header is part of what is returned at line 222: on the loading view
    (the early return of lines 213-220) it is not drawn. *)
Definition walletIdLabel (h : Hooks) : option string :=
  if loading h then None
  else
    match walletId h with
    | Some id =>
        if JS.truthy (Some id)
        then Some (JS.slice0 8 id ++ "..." ++ JS.slice_last 4 id)
        else None
    | None => None
    end.

(** The balance row of the Solana card, lines 263-267: a spinner while
    loading, otherwise [solBalance?.toFixed(4) ?? '0.0000'] followed by SOL.
    [toFixed] is [Number.prototype.toFixed]. *)
Inductive BalanceRow : Type :=
| BalanceSpinner
| BalanceAmount (text : string).

Definition balanceText (toFixed : float -> nat -> string) (st : State) : string :=
  match solBalance st with
  | Some b => toFixed b 4%nat
  | None => "0.0000"
  end ++ " SOL".

Definition balanceRow (toFixed : float -> nat -> string) (st : State) : BalanceRow :=
  if isLoadingBalance st then BalanceSpinner
  else BalanceAmount (balanceText toFixed st).

(** The sign button of a card, lines 274-284 and 307-317. *)
Record SignButton : Type := mkSignButton {
  disabled : bool;
  spinner : bool
}.

Definition signButton (c : Chain) (h : Hooks) (st : State) : SignButton :=
  match c with
  | Solana => mkSignButton (isSigning st || negb (isSolanaAvailable h)) (isSigning st)
  | Ethereum => mkSignButton (isSigning st || negb (isEthereumAvailable h)) (isSigning st)
  end.

(** The sign sub-state a card displays. *)
Inductive SignSubState : Type := SignIdle | SignPending.

Definition signSubState (c : Chain) (h : Hooks) (st : State) : SignSubState :=
  if spinner (signButton c h st) then SignPending else SignIdle.

(** The handler behind the sign button of a card. *)
Definition handleSign (c : Chain) (h : Hooks) (time : Z) : Proc State unit :=
  match c with
  | Solana => handleSignSolanaMessage h time
  | Ethereum => handleSignEthereumMessage h time
  end.

(** Pressing the sign button of a card does nothing when it is disabled or
    the card is not shown. *)
Definition pressSign (c : Chain) (h : Hooks) (time : Z) (st : State)
  : Result State unit :=
  if cardShown c h && negb (disabled (signButton c h st))
  then run (handleSign c h time) st
  else Done (Normal tt) st [].

(** The entry points of the component: its effects and the handlers behind
    its controls. *)
Inductive Action : Type :=
| RedirectEffect
| BalanceEffect
| Refresh
| Copy (c : Chain)
| Sign (c : Chain) (time : Z)
| LogOut.

Definition account (c : Chain) (h : Hooks) : option AddressEntry :=
  match c with
  | Solana => solanaAccount h
  | Ethereum => ethereumAccount h
  end.

Definition chainName (c : Chain) : string :=
  match c with
  | Solana => "Solana"
  | Ethereum => "Ethereum"
  end.

Definition perform (a : Action) (h : Hooks) : Proc State unit :=
  match a with
  | RedirectEffect => redirect (isConnected h)
  | BalanceEffect => balanceEffect h
  | Refresh =>
      match solanaAccount h with
      | Some acc => fetchBalance (address acc)
      | None => skip
      end
  | Copy c =>
      match account c h with
      | Some acc => handleCopy (address acc) (chainName c)
      | None => skip
      end
  | Sign c time => handleSign c h time
  | LogOut => handleDisconnect
  end.

End WalletInfo.

(** The session observer: when the session signal changes, the redirect
    effect of the screen that is mounted runs with the new value, and the
    router carries out what it asks for. *)
Definition redirectOf (s : Router.Screen) (connected : bool) : list Effect :=
  match s with
  | Router.Home => Async.trace (Async.run (HomeScreen.redirect connected) tt)
  | Router.Wallet =>
      Async.trace (Async.run (WalletInfo.redirect connected) WalletInfo.initial)
  end.

Definition onSessionChange (connected : bool) (n : Router.Nav) : Router.Nav :=
  match Router.screenAt (Router.current n) with
  | Some s => Router.applyAll (redirectOf s connected) n
  | None => n
  end.

(** A login through a provider button, on the home view, sets off two
    navigations: the one [handleConnect] asks for when [connect] has
    resolved, and the one of the redirect effect of HomeScreen, which renders
    the button (line 43) and fires on the same change of the flag (lines
    21-25).  Either may come first; [login] is what the handler asked for. *)
Definition buttonLogin (redirectFirst : bool) (login : list Effect) (n : Router.Nav)
  : Router.Nav :=
  if redirectFirst
  then Router.applyAll (redirectOf Router.Home true ++ login) n
  else Router.applyAll (login ++ redirectOf Router.Home true) n.

(** A logout through the button of the dashboard: what [handleDisconnect]
    asked for, and the session observer on the change of the flag, in either
    order. *)
Definition buttonLogout (redirectFirst : bool) (logout : list Effect) (n : Router.Nav)
  : Router.Nav :=
  if redirectFirst
  then Router.applyAll logout (onSessionChange false n)
  else onSessionChange false (Router.applyAll logout n).

(* ================================================================== *)
(** ** The dashboard over time *)

Module Dashboard.
Import Async WalletInfo.

(** The dashboard with its collaborators behind it: the component state,
    the invocations of its handlers that are suspended at a call, oldest
    first, and the effects so far. *)
Record World : Type := mkWorld {
  ui : State;
  inflight : list (Result State unit);
  shown : list Effect
}.

Definition start : World := mkWorld initial [] [].

(** Can the action be taken at a render with hooks [h]?  The effects run
    whenever React runs them; a control has to be drawn (lines 212-220, 242
    and 289) and not disabled (lines 277, 310 and 326). *)
Definition enabled (a : Action) (h : Hooks) (st : State) : bool :=
  match a with
  | RedirectEffect | BalanceEffect => true
  | Refresh => cardShown Solana h
  | Copy c => cardShown c h
  | Sign c _ => cardShown c h && negb (disabled (signButton c h st))
  | LogOut => negb (loading h) && negb (isDisconnecting h)
  end.

Definition invoke (a : Action) (h : Hooks) (w : World) : World :=
  if enabled a h (ui w) then
    let r := run (perform a h) (ui w) in
    mkWorld (state r)
            (if pending r then inflight w ++ [r] else inflight w)
            (shown w ++ trace r)
  else w.

(** The element at position [i] and the others, in order. *)
Fixpoint pick {A : Type} (i : nat) (l : list A) : option (A * list A) :=
  match l, i with
  | [], _ => None
  | x :: l', O => Some (x, l')
  | x :: l', S j =>
      match pick j l' with
      | Some (y, rest) => Some (y, x :: rest)
      | None => None
      end
  end.

(** The outstanding call at position [i] settles as [env] says; its handler
    goes on in the component state of that moment. *)
Definition settle (i : nat) (env : Oracle) (w : World) : World :=
  match pick i (inflight w) with
  | None => w
  | Some (r, rest) =>
      let r' := resume env (fun _ => ui w) r in
      mkWorld (state r')
              (if pending r' then rest ++ [r'] else rest)
              (shown w ++ trace r')
  end.

(** What happens: an action is taken at a render with some hooks, or an
    outstanding call settles. *)
Inductive Event : Type :=
| Invoke (a : Action) (h : Hooks)
| Settle (i : nat) (env : Oracle).

Definition step (ev : Event) (w : World) : World :=
  match ev with
  | Invoke a h => invoke a h w
  | Settle i env => settle i env w
  end.

Inductive Reachable : World -> Prop :=
| reach_start : Reachable start
| reach_step : forall w ev, Reachable w -> Reachable (step ev w).

(** The sign requests among the outstanding calls. *)
Definition isSignCall (c : AnyCall) : bool :=
  match c with
  | anyCall (solana_signMessage _) => true
  | anyCall (ethereum_signPersonalMessage _ _) => true
  | anyCall _ => false
  end.

Definition signing (r : Result State unit) : bool :=
  match awaiting r with
  | Some c => isSignCall c
  | None => false
  end.

Definition signsInFlight (w : World) : nat := length (filter signing (inflight w)).

(** Where the outstanding invocations come from. *)
Definition SignTask (r : Result State unit) : Prop :=
  exists c h time st, r = run (handleSign c h time) st /\ pending r = true.

Definition OtherTask (r : Result State unit) : Prop :=
  exists a h st,
    (forall c time, a <> Sign c time)
    /\ r = run (perform a h) st /\ pending r = true.

(** What every run of the dashboard keeps: the outstanding invocations are
    suspended handlers of the component, and the signing flag counts the
    sign requests among them. *)
Definition Tidy (w : World) : Prop :=
  Forall (fun r => SignTask r \/ OtherTask r) (inflight w)
  /\ signsInFlight w = if isSigning (ui w) then 1%nat else 0%nat.

(** An alert that, if it reports an error, reports it with a text, and not
    a cancellation. *)
Definition decent (a : string * string) : Prop :=
  fst a = "Error" ->
  snd a <> EmptyString /\ JS.includes (snd a) "cancelled" = false.

End Dashboard.

(* ================================================================== *)
(** ** Environments and scenarios *)

(** The error object an SDK call rejects with, by its message. *)
Definition thrown (m : option string) : JS.Thrown := Some (JS.mkError m).

(** An environment in which [disconnect] settles as given. *)
Definition disconnecting (o : Outcome unit) : Oracle :=
  fun R c =>
    match c in Call T return Outcome T with
    | disconnect => o
    | _ => Rejected None
    end.

(** Environments in which [connect], a sign call of a chain, or the
    clipboard write settles as given. *)
Definition connecting (o : Outcome unit) : Oracle :=
  fun R c =>
    match c in Call T return Outcome T with
    | connect _ => o
    | _ => Rejected None
    end.

Definition solanaSigning (o : Outcome SignedMessage) : Oracle :=
  fun R c =>
    match c in Call T return Outcome T with
    | solana_signMessage _ => o
    | _ => Rejected None
    end.

Definition ethereumSigning (o : Outcome string) : Oracle :=
  fun R c =>
    match c in Call T return Outcome T with
    | ethereum_signPersonalMessage _ _ => o
    | _ => Rejected None
    end.

Definition copying (o : Outcome unit) : Oracle :=
  fun R c =>
    match c in Call T return Outcome T with
    | copyToClipboard _ => o
    | _ => Rejected None
    end.

(** An environment in which [getBalance] settles as given. *)
Definition balanceLookup (o : Outcome float) : Oracle :=
  fun R c =>
    match c in Call T return Outcome T with
    | getBalance _ => o
    | _ => Rejected None
    end.

(** The dashboard of a wallet with an address on both chains and both
    signers available. *)
Definition bothChains : WalletInfo.Hooks :=
  WalletInfo.mkHooks
    (Some [WalletInfo.mkAddress AddressType.solana "A";
           WalletInfo.mkAddress AddressType.ethereum "B"])
    true (Some "wallet-1") false
    (Some WalletInfo.signer) true (Some WalletInfo.signer) true.

(** A wallet whose Solana address is known but whose Ethereum address is
    missing, with the Solana signer not yet available. *)
Definition solanaOnly : WalletInfo.Hooks :=
  WalletInfo.mkHooks
    (Some [WalletInfo.mkAddress AddressType.solana "A"])
    true (Some "wallet-1") false
    (Some WalletInfo.signer) false (Some WalletInfo.signer) true.

(* ================================================================== *)
(** * Properties *)

(** ** Substrings *)

Lemma prefix_iff_append (sub s : string) :
  String.prefix sub s = true <-> exists post, s = sub ++ post.
Proof.
  revert s; induction sub as [|c sub IH]; intros s.
  - split; [intros _; now exists s | now destruct s].
  - destruct s as [|d s]; simpl.
    + split; [discriminate | intros [post H]; discriminate].
    + destruct (Ascii.ascii_dec c d) as [->|ne].
      * rewrite IH; split; intros [post H]; exists post; congruence.
      * split; [discriminate | intros [post H]; congruence].
Qed.

Lemma includes_nil (sub : string) : JS.includes EmptyString sub = String.prefix sub EmptyString.
Proof. unfold JS.includes. now destruct (String.prefix sub EmptyString). Qed.

Lemma includes_cons (c : ascii) (s sub : string) :
  JS.includes (String c s) sub
  = String.prefix sub (String c s) || JS.includes s sub.
Proof.
  change (JS.includes (String c s) sub)
    with (if String.prefix sub (String c s) then true else JS.includes s sub).
  now destruct (String.prefix sub (String c s)).
Qed.

(** [includes] is the substring test: [s] contains [sub] exactly when [s]
    is some text, then [sub], then some text. *)
Lemma includes_iff_substring (s sub : string) :
  JS.includes s sub = true <-> exists pre post, s = pre ++ sub ++ post.
Proof.
  induction s as [|c s IH].
  - rewrite includes_nil, prefix_iff_append. split.
    + intros [post H]. now exists EmptyString, post.
    + intros [pre [post H]]. destruct pre; [|discriminate]. now exists post.
  - rewrite includes_cons, Bool.orb_true_iff, prefix_iff_append, IH. split.
    + intros [[post H]|[pre [post H]]].
      * now exists EmptyString, post.
      * exists (String c pre), post. simpl; congruence.
    + intros [pre [post H]]. destruct pre as [|d pre]; simpl in H.
      * left. now exists post.
      * right. exists pre, post. congruence.
Qed.

Lemma falsy_cases (v : option string) :
  JS.truthy v = false <-> v = None \/ v = Some EmptyString.
Proof.
  destruct v as [[|c s]|]; simpl; split; auto; try discriminate.
  intros [H|H]; discriminate.
Qed.

(** ** The account of a chain *)

Section SelectAccount.
Import WalletInfo.

Lemma find_first_match (chainType : string) (l : list AddressEntry) :
  match find (fun addr => String.eqb (addressType addr) chainType) l with
  | Some e =>
      exists pre post,
        l = (pre ++ e :: post)%list
        /\ addressType e = chainType
        /\ Forall (fun x => addressType x <> chainType) pre
  | None => Forall (fun x => addressType x <> chainType) l
  end.
Proof.
  induction l as [|a l IH]; simpl.
  - constructor.
  - destruct (String.eqb_spec (addressType a) chainType) as [E|NE].
    + exists [], l. repeat split; auto.
    + destruct (find _ l) as [e|].
      * destruct IH as (pre & post & -> & T & F).
        exists (a :: pre), post. repeat split; auto.
      * constructor; auto.
Qed.

(** C8.  [selectAccount] returns the first entry of the list whose chain
    type is the one asked for: the entries before it are of other chains;
    it returns nothing when no entry is of that chain, or when there is no
    list.  On the two-entry list of the specification it returns the entry
    with address "B".  Being a function, it gives the same result whenever
    it is asked the same question. *)
Theorem selectAccount_first_match (l : list AddressEntry) (chainType : string) :
  match selectAccount (Some l) chainType with
  | Some e =>
      exists pre post,
        l = (pre ++ e :: post)%list
        /\ addressType e = chainType
        /\ Forall (fun x => addressType x <> chainType) pre
  | None => Forall (fun x => addressType x <> chainType) l
  end
  /\ selectAccount None chainType = None
  /\ selectAccount (Some [mkAddress "solana" "A"; mkAddress "ethereum" "B"])
                   "ethereum"
     = Some (mkAddress "ethereum" "B").
Proof.
  split; [apply find_first_match | split; reflexivity].
Qed.

End SelectAccount.

(** ** Errors of connect and sign attempts *)

(** By cases on the condition of an [if]. *)
Ltac case_guard :=
  match goal with
  | |- context [if ?b then _ else _] => destruct b
  end.

(** Runs a handler on a rejection whose message is the non-empty [m],
    by cases on whether [m] contains the cancellation marker. *)
Ltac by_marker m :=
  unfold Async.attempt; cbn;
  generalize (JS.includes m "cancelled"); intros [|];
  (destruct m; [congruence|]); cbn; repeat split; intros; reflexivity.

Lemma connect_rejected_nonempty (m : string) provider between st :
  m <> EmptyString ->
  let r := Async.attempt (rejecting (thrown (Some m))) between
             (ConnectButton.handleConnect provider) st in
  alerts (Async.trace r)
  = (if JS.includes m "cancelled" then [] else [("Connection Failed", m)]).
Proof. intros H. by_marker m. Qed.

(** A sign attempt is one the handler started: it got past its guard and
    awaits the SDK. *)
Lemma sign_started c h time st :
  Async.pending (Async.run (WalletInfo.handleSign c h time) st) = true ->
  exists msg,
    Async.run (WalletInfo.handleSign c h time) st
    = Async.run (WalletInfo.setIsSigning true ;;
                 Async.try_finally
                   (Async.try_catch msg WalletInfo.signFailed)
                   (WalletInfo.setIsSigning false)) st
    /\ exists R (call : Call R) k, msg = Async.Await call k
       /\ forall error, k (Rejected error) = Async.Throw error.
Proof.
  destruct c; cbn [WalletInfo.handleSign];
    unfold WalletInfo.handleSignSolanaMessage, WalletInfo.handleSignEthereumMessage.
  - destruct (negb (WalletInfo.isSolanaAvailable h) || negb (JS.present (WalletInfo.solana h))).
    + discriminate.
    + intros _. eexists; split; [reflexivity|].
      cbn. do 3 eexists; split; [reflexivity|]. reflexivity.
  - destruct (negb (WalletInfo.isEthereumAvailable h) || negb (JS.present (WalletInfo.ethereum h))
              || negb (JS.truthy (WalletInfo.address_of (WalletInfo.ethereumAccount h)))) eqn:G.
    + discriminate.
    + intros _.
      destruct (WalletInfo.ethereumAccount h) as [account|] eqn:E.
      * eexists; split; [reflexivity|].
        cbn. do 3 eexists; split; [reflexivity|]. reflexivity.
      * cbn in G. rewrite Bool.orb_true_r in G. discriminate.
Qed.

Lemma sign_rejected c h time between st error :
  Async.pending (Async.run (WalletInfo.handleSign c h time) st) = true ->
  Async.attempt (rejecting error) between (WalletInfo.handleSign c h time) st
  = Async.run (WalletInfo.signFailed error ;; WalletInfo.setIsSigning false)
              (between (WalletInfo.mkState (WalletInfo.solBalance st)
                                           (WalletInfo.isLoadingBalance st) true)).
Proof.
  intros P. destruct (sign_started c h time st P) as (msg & E & R & call & k & -> & K).
  unfold Async.attempt. rewrite E. cbn. unfold rejecting. rewrite K. cbn.
  unfold WalletInfo.signFailed.
  destruct (JS.not_ _); reflexivity.
Qed.

Lemma connect_rejected_idle error provider between st h :
  let r := Async.attempt (rejecting error) between
             (ConnectButton.handleConnect provider) st in
  ConnectButton.status h (Async.state r) = ConnectButton.idle
  /\ ConnectButton.activeProvider (Async.state r) = None
  /\ Async.completion r = Some (Async.Normal tt).
Proof.
  unfold Async.attempt; cbn.
  destruct (JS.message_of error) as [m|]; cbn.
  - case_guard; cbn; auto.
  - auto.
Qed.

Lemma sign_rejected_idle c h time between st error :
  Async.pending (Async.run (WalletInfo.handleSign c h time) st) = true ->
  let r := Async.attempt (rejecting error) between (WalletInfo.handleSign c h time) st in
  WalletInfo.isSigning (Async.state r) = false
  /\ Async.completion r = Some (Async.Normal tt).
Proof.
  intros P r. subst r. rewrite (sign_rejected _ _ _ _ _ _ P).
  unfold WalletInfo.signFailed. destruct (JS.not_ _); cbn; auto.
Qed.

(** C1, as the code has it.  An error of a connect attempt or of a sign
    attempt whose message is there and is not empty raises a blocking alert
    exactly when the message does not contain "cancelled": no alert when it
    does, one alert with that message when it does not.  After any error,
    whatever its message, the attempt is idle again: no provider is active
    and the signing flag is down. *)
Theorem alert_unless_cancelled (m : string) :
  m <> EmptyString ->
  (forall provider between st,
     alerts (Async.trace (Async.attempt (rejecting (thrown (Some m))) between
                            (ConnectButton.handleConnect provider) st))
     = (if JS.includes m "cancelled" then [] else [("Connection Failed", m)]))
  /\ (forall c h time between st,
     Async.pending (Async.run (WalletInfo.handleSign c h time) st) = true ->
     alerts (Async.trace (Async.attempt (rejecting (thrown (Some m))) between
                            (WalletInfo.handleSign c h time) st))
     = (if JS.includes m "cancelled" then [] else [("Error", m)]))
  /\ (forall error provider between st h,
     ConnectButton.status h
       (Async.state (Async.attempt (rejecting error) between
                       (ConnectButton.handleConnect provider) st))
     = ConnectButton.idle)
  /\ (forall error c h time between st c',
     Async.pending (Async.run (WalletInfo.handleSign c h time) st) = true ->
     WalletInfo.signSubState c' h
       (Async.state (Async.attempt (rejecting error) between
                       (WalletInfo.handleSign c h time) st))
     = WalletInfo.SignIdle).
Proof.
  intros H. repeat split.
  - intros. now apply connect_rejected_nonempty.
  - intros c h time between st P. rewrite (sign_rejected _ _ _ _ _ _ P).
    unfold WalletInfo.signFailed; cbn.
    generalize (JS.includes m "cancelled"); intros [|];
      (destruct m; [congruence|]); reflexivity.
  - intros. apply connect_rejected_idle.
  - intros error c h time between st c' P.
    destruct (sign_rejected_idle c h time between st error P) as [I _].
    unfold WalletInfo.signSubState. destruct c'; cbn; now rewrite I.
Qed.

Lemma alert_unless_cancelled_witness :
  alerts (Async.trace (Async.attempt (rejecting (thrown (Some "Network error")))
                         (fun st => st)
                         (ConnectButton.handleConnect google) ConnectButton.initial))
  = [("Connection Failed", "Network error")]
  /\ alerts (Async.trace (Async.attempt (rejecting (thrown (Some "Network error")))
                         (fun st => st)
                         (WalletInfo.handleSign WalletInfo.Solana bothChains 0)
                         WalletInfo.initial))
  = [("Error", "Network error")].
Proof.
  assert (H : "Network error" <> EmptyString) by discriminate.
  destruct (alert_unless_cancelled "Network error" H) as (C & S & _).
  split.
  - exact (C google (fun st => st) ConnectButton.initial).
  - exact (S WalletInfo.Solana bothChains 0%Z (fun st => st) WalletInfo.initial
             eq_refl).
Defined.

(** C1 as the specification states it fails on the connect flow: the empty
    message does not contain "cancelled", and yet the error raises no alert. *)
Lemma empty_message_connect_no_alert :
  JS.includes EmptyString "cancelled" = false
  /\ alerts (Async.trace (Async.attempt (rejecting (thrown (Some EmptyString)))
                            (fun st => st)
                            (ConnectButton.handleConnect google)
                            ConnectButton.initial))
     = [].
Proof. split; reflexivity. Qed.

(** A sign action whose guard lets it through starts: it is suspended at
    the call to the signer. *)
Lemma solana_sign_starts h time st :
  WalletInfo.isSolanaAvailable h = true ->
  WalletInfo.solana h <> None ->
  Async.pending (Async.run (WalletInfo.handleSignSolanaMessage h time) st) = true.
Proof.
  intros A S. unfold WalletInfo.handleSignSolanaMessage. rewrite A.
  destruct (WalletInfo.solana h); [reflexivity | congruence].
Qed.

Lemma ethereum_sign_starts h time st :
  WalletInfo.isEthereumAvailable h = true ->
  WalletInfo.ethereum h <> None ->
  JS.truthy (WalletInfo.address_of (WalletInfo.ethereumAccount h)) = true ->
  Async.pending (Async.run (WalletInfo.handleSignEthereumMessage h time) st) = true.
Proof.
  intros A S T. unfold WalletInfo.handleSignEthereumMessage. rewrite A, T.
  destruct (WalletInfo.ethereum h); [|congruence].
  destruct (WalletInfo.ethereumAccount h); [reflexivity | discriminate].
Qed.

(** C9.  An error of a connect attempt whose message is absent or empty is
    suppressed: no alert is raised and the inline error text, cleared when
    the attempt began, stays cleared.  An error with such a message of a sign
    attempt, on Solana when the signer is available and there, on Ethereum
    when moreover the account has an address, raises one alert, titled
    "Error", with the fallback text "Signing failed", and nothing else. *)
Theorem missing_message_connect_silent_sign_fallback (error : JS.Thrown) :
  JS.truthy (JS.message_of error) = false ->
  (forall provider between st,
     let paused := Async.run (ConnectButton.handleConnect provider) st in
     let r := Async.attempt (rejecting error) between
                (ConnectButton.handleConnect provider) st in
     alerts (Async.trace r) = []
     /\ ConnectButton.userError (Async.state paused) = None
     /\ ConnectButton.userError (Async.state r)
        = ConnectButton.userError (between (Async.state paused)))
  /\ (forall provider st,
     ConnectButton.errorLine
       (Async.state (Async.attempt (rejecting error) (fun s => s)
                       (ConnectButton.handleConnect provider) st))
     = None)
  /\ (forall h time between st,
     WalletInfo.isSolanaAvailable h = true ->
     WalletInfo.solana h <> None ->
     Async.trace (Async.attempt (rejecting error) between
                    (WalletInfo.handleSignSolanaMessage h time) st)
     = [Alert_alert "Error" "Signing failed"])
  /\ (forall h time between st,
     WalletInfo.isEthereumAvailable h = true ->
     WalletInfo.ethereum h <> None ->
     JS.truthy (WalletInfo.address_of (WalletInfo.ethereumAccount h)) = true ->
     Async.trace (Async.attempt (rejecting error) between
                    (WalletInfo.handleSignEthereumMessage h time) st)
     = [Alert_alert "Error" "Signing failed"]).
Proof.
  intros F. apply falsy_cases in F.
  split; [|split; [|split]].
  - intros provider between st.
    unfold Async.attempt; cbn. destruct F as [-> | ->]; repeat split.
  - intros provider st.
    unfold Async.attempt; cbn. destruct F as [-> | ->]; reflexivity.
  - intros h time between st A S.
    pose proof (solana_sign_starts h time st A S) as P.
    change (WalletInfo.handleSignSolanaMessage h time)
      with (WalletInfo.handleSign WalletInfo.Solana h time) in *.
    rewrite (sign_rejected _ _ _ _ _ _ P).
    unfold WalletInfo.signFailed. destruct F as [-> | ->]; reflexivity.
  - intros h time between st A S T.
    pose proof (ethereum_sign_starts h time st A S T) as P.
    change (WalletInfo.handleSignEthereumMessage h time)
      with (WalletInfo.handleSign WalletInfo.Ethereum h time) in *.
    rewrite (sign_rejected _ _ _ _ _ _ P).
    unfold WalletInfo.signFailed. destruct F as [-> | ->]; reflexivity.
Qed.

Lemma missing_message_witness :
  alerts (Async.trace (Async.attempt (rejecting (thrown None)) (fun st => st)
                         (ConnectButton.handleConnect apple) ConnectButton.initial))
  = []
  /\ Async.trace (Async.attempt (rejecting (thrown None)) (fun st => st)
                    (WalletInfo.handleSignSolanaMessage bothChains 0)
                    WalletInfo.initial)
     = [Alert_alert "Error" "Signing failed"]
  /\ Async.trace (Async.attempt (rejecting (thrown (Some EmptyString))) (fun st => st)
                    (WalletInfo.handleSignEthereumMessage bothChains 0)
                    WalletInfo.initial)
     = [Alert_alert "Error" "Signing failed"].
Proof.
  destruct (missing_message_connect_silent_sign_fallback (thrown None) eq_refl)
    as (C & _ & S & _).
  destruct (missing_message_connect_silent_sign_fallback
              (thrown (Some EmptyString)) eq_refl)
    as (_ & _ & _ & E).
  split; [|split].
  - exact (proj1 (C apple (fun st => st) ConnectButton.initial)).
  - apply (S bothChains 0%Z (fun st => st) WalletInfo.initial);
      [reflexivity | discriminate].
  - apply (E bothChains 0%Z (fun st => st) WalletInfo.initial);
      [reflexivity | discriminate | reflexivity].
Defined.

(** ** Disconnect *)

(** C2, as the code has it.  [handleDisconnect] never throws to its caller
    and never raises an alert, and it leaves the component state alone.  When
    the SDK call succeeds it navigates, once, with [replace], to the
    unauthenticated view.  When the SDK call fails the failure is logged and
    the handler does not navigate; the user leaves the dashboard when the
    session signal reports the disconnection, through the redirect effect. *)
Theorem disconnect_navigates_on_success (o : Outcome unit)
    (between : WalletInfo.State -> WalletInfo.State) (st : WalletInfo.State) :
  let r := Async.attempt (disconnecting o) between WalletInfo.handleDisconnect st in
  Async.completion r = Some (Async.Normal tt)
  /\ alerts (Async.trace r) = []
  /\ Async.state r = between st
  /\ Async.trace r
     = match o with
       | Resolved _ => [router_replace (Router.path Router.Home)]
       | Rejected error => [console_error "Disconnect failed:" error]
       end
  /\ forall back,
       onSessionChange false (Router.mkNav (Router.path Router.Wallet) back)
       = Router.mkNav (Router.path Router.Home) back.
Proof.
  unfold Async.attempt; cbn.
  destruct o as [[]|error]; cbn; repeat split.
Qed.

(** C2 as the specification states it fails: the SDK's [disconnect] rejects,
    the session stays connected, and the user is still on the dashboard; the
    handler asked for no navigation and the session observer has nothing to
    redirect. *)
Lemma disconnect_failure_stays_on_dashboard :
  let r := Async.attempt (disconnecting (Rejected (thrown (Some "Network error"))))
             (fun st => st) WalletInfo.handleDisconnect WalletInfo.initial in
  navigations (Async.trace r) = []
  /\ onSessionChange true
       (Router.applyAll (Async.trace r) (Router.mkNav "/wallet" ["/"]))
     = Router.mkNav "/wallet" ["/"].
Proof. split; reflexivity. Qed.

(** ** The balance *)

(** C7.  When the balance lookup fails, [fetchBalance] does not throw to its
    caller and raises no alert; it logs the error.  The balance is the one
    that was there when the lookup settled, which is the one from before the
    call unless something else changed it meanwhile, and the loading
    indicator is cleared: the balance row shows the amount again, and it
    shows 0.0000 SOL when no balance was ever loaded. *)
Theorem fetchBalance_failure_keeps_balance (addr : string) (error : JS.Thrown)
    (toFixed : float -> nat -> string)
    (between : WalletInfo.State -> WalletInfo.State) (st : WalletInfo.State) :
  let paused := Async.run (WalletInfo.fetchBalance addr) st in
  let r := Async.attempt (balanceLookup (Rejected error)) between
             (WalletInfo.fetchBalance addr) st in
  Async.completion r = Some (Async.Normal tt)
  /\ Async.trace r = [console_error "Failed to fetch balance:" error]
  /\ WalletInfo.isLoadingBalance (Async.state paused) = true
  /\ WalletInfo.solBalance (Async.state paused) = WalletInfo.solBalance st
  /\ WalletInfo.solBalance (Async.state r)
     = WalletInfo.solBalance (between (Async.state paused))
  /\ WalletInfo.isLoadingBalance (Async.state r) = false
  /\ WalletInfo.balanceRow toFixed (Async.state r)
     = WalletInfo.BalanceAmount
         (WalletInfo.balanceText toFixed (between (Async.state paused)))
  /\ WalletInfo.balanceRow toFixed
       (Async.state
          (Async.attempt (balanceLookup (Rejected error)) (fun s => s)
             (WalletInfo.fetchBalance addr)
             (WalletInfo.mkState None (WalletInfo.isLoadingBalance st)
                                 (WalletInfo.isSigning st))))
     = WalletInfo.BalanceAmount "0.0000 SOL".
Proof.
  unfold Async.attempt; cbn. repeat split.
Qed.

(** What a successful lookup does, for comparison: the balance is replaced. *)
Lemma fetchBalance_success_sets_balance (addr : string) (bal : float)
    (between : WalletInfo.State -> WalletInfo.State) (st : WalletInfo.State) :
  let r := Async.attempt (balanceLookup (Resolved bal)) between
             (WalletInfo.fetchBalance addr) st in
  Async.completion r = Some (Async.Normal tt)
  /\ WalletInfo.solBalance (Async.state r) = Some bal
  /\ WalletInfo.isLoadingBalance (Async.state r) = false.
Proof.
  unfold Async.attempt; cbn. repeat split.
Qed.

(** ** The guards of the sign actions *)

(** C10.  The Ethereum sign action returns at once, with the component
    state as it was, no effect at all and no call to the SDK, when the
    Ethereum signer is reported unavailable, when there is no Ethereum
    capability object, or when there is no (non-empty) Ethereum address; the
    Solana sign action does the same when the Solana signer is reported
    unavailable or there is no Solana capability object. *)
Theorem sign_guard_is_noop (h : WalletInfo.Hooks) (time : Z) (st : WalletInfo.State) :
  (WalletInfo.isEthereumAvailable h = false
   \/ WalletInfo.ethereum h = None
   \/ JS.truthy (WalletInfo.address_of (WalletInfo.ethereumAccount h)) = false ->
   Async.run (WalletInfo.handleSignEthereumMessage h time) st
   = Async.Done (Async.Normal tt) st [])
  /\ (WalletInfo.isSolanaAvailable h = false
      \/ WalletInfo.solana h = None ->
      Async.run (WalletInfo.handleSignSolanaMessage h time) st
      = Async.Done (Async.Normal tt) st []).
Proof.
  split; intros G.
  - unfold WalletInfo.handleSignEthereumMessage.
    destruct G as [-> | [-> | ->]]; cbn.
    + reflexivity.
    + now rewrite Bool.orb_true_r.
    + now rewrite Bool.orb_true_r.
  - unfold WalletInfo.handleSignSolanaMessage.
    destruct G as [-> | ->]; cbn.
    + reflexivity.
    + now rewrite Bool.orb_true_r.
Qed.

Lemma sign_guard_witness :
  Async.run (WalletInfo.handleSignEthereumMessage solanaOnly 0) 
            (WalletInfo.mkState None true true)
  = Async.Done (Async.Normal tt) (WalletInfo.mkState None true true) []
  /\ Async.run (WalletInfo.handleSignSolanaMessage solanaOnly 0)
               (WalletInfo.mkState None true true)
     = Async.Done (Async.Normal tt) (WalletInfo.mkState None true true) [].
Proof.
  destruct (sign_guard_is_noop solanaOnly 0%Z (WalletInfo.mkState None true true))
    as [E S].
  split.
  - apply E. right; right; reflexivity.
  - apply S. left; reflexivity.
Defined.

(** ** The sign sub-state of the chain cards *)

Lemma sign_pending_state c h time st :
  Async.pending (Async.run (WalletInfo.handleSign c h time) st) = true ->
  Async.state (Async.run (WalletInfo.handleSign c h time) st)
  = WalletInfo.mkState (WalletInfo.solBalance st) (WalletInfo.isLoadingBalance st) true.
Proof.
  intros P. destruct (sign_started c h time st P) as (msg & E & R & call & k & -> & K).
  now rewrite E.
Qed.

Lemma sign_settled_idle env c h time between st :
  Async.pending (Async.run (WalletInfo.handleSign c h time) st) = true ->
  let r := Async.attempt env between (WalletInfo.handleSign c h time) st in
  WalletInfo.isSigning (Async.state r) = false
  /\ Async.completion r = Some (Async.Normal tt)
  /\ pushes (Async.trace r) = [].
Proof.
  destruct c; cbn [WalletInfo.handleSign];
    unfold WalletInfo.handleSignSolanaMessage, WalletInfo.handleSignEthereumMessage.
  - case_guard; [discriminate|]. intros _.
    unfold Async.attempt; cbn.
    destruct (env _ _) as [sig|error]; cbn; [auto|].
    unfold WalletInfo.signFailed. case_guard; cbn; auto.
  - case_guard; [discriminate|]. intros _.
    destruct (WalletInfo.ethereumAccount h) as [acc|];
      unfold Async.attempt; cbn.
    + destruct (env _ _) as [sig|error]; cbn; [auto|].
      unfold WalletInfo.signFailed. case_guard; cbn; auto.
    + auto.
Qed.

(** C3, as the code has it.  The dashboard has one signing flag, shared by
    the two chain cards.  Once the sign action of a card has started, both
    cards display the pending sub-state and both sign buttons are disabled;
    when the SDK call settles, whether it resolves or rejects, both cards
    display the idle sub-state again.  At every moment the two cards display
    the same sign sub-state. *)
Theorem sign_substate_is_shared (c : WalletInfo.Chain) (h : WalletInfo.Hooks)
    (time : Z) (st : WalletInfo.State) :
  Async.pending (Async.run (WalletInfo.handleSign c h time) st) = true ->
  (forall c',
     WalletInfo.signSubState c' h
       (Async.state (Async.run (WalletInfo.handleSign c h time) st))
     = WalletInfo.SignPending
     /\ WalletInfo.disabled
          (WalletInfo.signButton c' h
             (Async.state (Async.run (WalletInfo.handleSign c h time) st)))
        = true)
  /\ (forall env between c',
     WalletInfo.signSubState c' h
       (Async.state (Async.attempt env between (WalletInfo.handleSign c h time) st))
     = WalletInfo.SignIdle)
  /\ (forall h' st',
     WalletInfo.signSubState WalletInfo.Solana h' st'
     = WalletInfo.signSubState WalletInfo.Ethereum h' st').
Proof.
  intros P. split; [|split].
  - intros c'. rewrite (sign_pending_state _ _ _ _ P). destruct c'; split; reflexivity.
  - intros env between c'.
    destruct (sign_settled_idle env c h time between st P) as (I & _).
    unfold WalletInfo.signSubState. destruct c'; cbn; now rewrite I.
  - reflexivity.
Qed.

Lemma sign_substate_witness :
  WalletInfo.signSubState WalletInfo.Ethereum bothChains
    (Async.state (Async.run (WalletInfo.handleSign WalletInfo.Solana bothChains 0)
                            WalletInfo.initial))
  = WalletInfo.SignPending
  /\ WalletInfo.signSubState WalletInfo.Solana bothChains
       (Async.state (Async.attempt (rejecting None) (fun st => st)
                       (WalletInfo.handleSign WalletInfo.Solana bothChains 0)
                       WalletInfo.initial))
     = WalletInfo.SignIdle.
Proof.
  destruct (sign_substate_is_shared WalletInfo.Solana bothChains 0%Z
              WalletInfo.initial eq_refl) as (P & I & _).
  split.
  - exact (proj1 (P WalletInfo.Ethereum)).
  - exact (I (rejecting None) (fun st => st) WalletInfo.Solana).
Defined.

(** C3 as the specification states it fails: the user presses the sign
    button of the Solana card, and the Ethereum card, whose sign action was
    never started, leaves the idle sub-state with it: it displays the
    pending sub-state, its button is disabled, and pressing it does nothing. *)
Lemma solana_signing_blocks_ethereum_card :
  let st := Async.state (WalletInfo.pressSign WalletInfo.Solana bothChains 0
                           WalletInfo.initial) in
  WalletInfo.signSubState WalletInfo.Ethereum bothChains WalletInfo.initial
  = WalletInfo.SignIdle
  /\ WalletInfo.signSubState WalletInfo.Solana bothChains st = WalletInfo.SignPending
  /\ WalletInfo.signSubState WalletInfo.Ethereum bothChains st = WalletInfo.SignPending
  /\ WalletInfo.disabled (WalletInfo.signButton WalletInfo.Ethereum bothChains st) = true
  /\ WalletInfo.pressSign WalletInfo.Ethereum bothChains 1 st
     = Async.Done (Async.Normal tt) st [].
Proof. repeat split. Qed.

(** ** The session observer *)

Lemma dashboard_never_pushes (a : WalletInfo.Action) (h : WalletInfo.Hooks)
    (env : Oracle) between st :
  pushes (Async.trace (Async.attempt env between (WalletInfo.perform a h) st)) = [].
Proof.
  destruct a as [| | |c|c time|]; cbn [WalletInfo.perform].
  - unfold WalletInfo.redirect. case_guard; reflexivity.
  - unfold WalletInfo.balanceEffect.
    destruct (WalletInfo.address_of _) as [addr|]; [|reflexivity].
    case_guard; [|reflexivity].
    unfold Async.attempt; cbn. destruct (env _ _); reflexivity.
  - destruct (WalletInfo.solanaAccount h) as [acc|]; [|reflexivity].
    unfold Async.attempt; cbn. destruct (env _ _); reflexivity.
  - destruct (WalletInfo.account c h) as [acc|]; [|reflexivity].
    unfold Async.attempt; cbn. destruct (env _ _); reflexivity.
  - destruct (Async.pending (Async.run (WalletInfo.handleSign c h time) st)) eqn:P.
    + now destruct (sign_settled_idle env c h time between st P) as (_ & _ & N).
    + revert P. destruct c; cbn [WalletInfo.handleSign];
        unfold WalletInfo.handleSignSolanaMessage, WalletInfo.handleSignEthereumMessage;
        (case_guard; [reflexivity|]); cbn.
      * discriminate.
      * destruct (WalletInfo.ethereumAccount h); cbn; [discriminate|reflexivity].
  - unfold Async.attempt; cbn. destruct (env _ _); reflexivity.
Qed.

Lemma connect_pushes_on_success (env : Oracle) between provider st :
  pushes (Async.trace (Async.attempt env between
                         (ConnectButton.handleConnect provider) st))
  = if ConnectButton.resolves env
         (Async.run (ConnectButton.handleConnect provider) st)
    then [Router.path Router.Wallet] else [].
Proof.
  unfold Async.attempt; cbn. destruct (env _ _) as [[]|error]; cbn.
  - reflexivity.
  - destruct (JS.message_of error) as [m|]; cbn; [|reflexivity].
    case_guard; reflexivity.
Qed.

(** C6.  When the connected flag of the session signal changes, the redirect
    effect of the mounted screen brings the user to the authenticated view
    if the flag is up and to the unauthenticated view if it is down, and it
    does so with [replace]: the back stack is as it was and nothing is
    pushed.  When the user already is on the target view the effect asks for
    nothing, so observing the same flag again changes nothing.  The
    reversible [push] is asked for by no effect and by no handler of the
    dashboard; it is asked for by [handleConnect] alone, which runs when the
    user presses a provider button, and only once [connect] has resolved,
    towards the authenticated view. *)
Theorem session_redirects_with_replace (connected : bool) (s : Router.Screen)
    (back : list string) :
  let n := Router.mkNav (Router.path s) back in
  onSessionChange connected n
  = Router.mkNav (Router.path (Router.target connected)) back
  /\ pushes (redirectOf s connected) = []
  /\ redirectOf (Router.target connected) connected = []
  /\ onSessionChange connected (onSessionChange connected n)
     = onSessionChange connected n
  /\ (forall a h env between st,
        pushes (Async.trace (Async.attempt env between (WalletInfo.perform a h) st))
        = [])
  /\ (forall env between provider st,
        pushes (Async.trace (Async.attempt env between
                               (ConnectButton.handleConnect provider) st))
        = if ConnectButton.resolves env
               (Async.run (ConnectButton.handleConnect provider) st)
          then [Router.path Router.Wallet] else []).
Proof.
  repeat split.
  - destruct connected, s; reflexivity.
  - destruct connected, s; reflexivity.
  - destruct connected; reflexivity.
  - destruct connected, s; reflexivity.
  - apply dashboard_never_pushes.
  - apply connect_pushes_on_success.
Qed.

(** ** The timer of the auto-open modal *)

Section AutoOpen.
Import ModalConnectButton.
Local Open Scope nat_scope.

Lemma elapses_cons dt dts w : elapses (dt :: dts) w = elapses dts (elapse dt w).
Proof. reflexivity. Qed.

Lemma total_cons dt dts : total (dt :: dts) = dt + total dts.
Proof. reflexivity. Qed.

Lemma elapse_no_timer dt t nh m c cs :
  elapse dt (mkWorld (Timers.mkLoop t nh []) m c cs)
  = mkWorld (Timers.mkLoop (t + dt) nh []) m c cs.
Proof.
  unfold elapse, Timers.elapse; cbn. now rewrite app_nil_r.
Qed.

Lemma elapses_no_timer dts : forall t nh m c cs,
  elapses dts (mkWorld (Timers.mkLoop t nh []) m c cs)
  = mkWorld (Timers.mkLoop (t + total dts) nh []) m c cs.
Proof.
  induction dts as [|dt dts IH]; intros.
  - cbn. now rewrite Nat.add_0_r.
  - now rewrite elapses_cons, total_cons, elapse_no_timer, IH, Nat.add_assoc.
Qed.

Lemma elapse_one_timer dt t nh id d m c cs :
  elapse dt (mkWorld (Timers.mkLoop t nh [Timers.mkTimer id d openModal]) m c cs)
  = if d <=? t + dt
    then mkWorld (Timers.mkLoop (t + dt) nh []) m c (cs ++ [modal_open])
    else mkWorld (Timers.mkLoop (t + dt) nh [Timers.mkTimer id d openModal]) m c cs.
Proof.
  unfold elapse, Timers.elapse; cbn.
  destruct (d <=? t + dt); cbn; [reflexivity | now rewrite app_nil_r].
Qed.

Lemma elapses_one_timer dts : forall t nh id d m c cs,
  t < d ->
  elapses dts (mkWorld (Timers.mkLoop t nh [Timers.mkTimer id d openModal]) m c cs)
  = if d <=? t + total dts
    then mkWorld (Timers.mkLoop (t + total dts) nh []) m c (cs ++ [modal_open])
    else mkWorld (Timers.mkLoop (t + total dts) nh
                                [Timers.mkTimer id d openModal]) m c cs.
Proof.
  induction dts as [|dt dts IH]; intros t nh id d m c cs L.
  - cbn [elapses fold_left total fold_right].
    rewrite Nat.add_0_r. destruct (Nat.leb_spec d t); [lia | reflexivity].
  - rewrite elapses_cons, total_cons, elapse_one_timer, Nat.add_assoc.
    destruct (Nat.leb_spec d (t + dt)) as [F|W]; cbv iota.
    + rewrite elapses_no_timer.
      destruct (Nat.leb_spec d (t + dt + total dts)); [reflexivity | lia].
    + now apply IH.
Qed.

Lemma fresh_world t0 id0 :
  fresh t0 id0
  = mkWorld (Timers.mkLoop t0 (S id0) [Timers.mkTimer id0 (t0 + 500) openModal])
            true (Some id0) [].
Proof. reflexivity. Qed.

Lemma unmount_pending t nh id d m cs :
  unmount (mkWorld (Timers.mkLoop t nh [Timers.mkTimer id d openModal])
                   m (Some id) cs)
  = mkWorld (Timers.mkLoop t nh []) false None cs.
Proof.
  unfold unmount, Timers.clearTimeout; cbn. now rewrite Nat.eqb_refl.
Qed.

Lemma unmount_fired t nh m c cs :
  unmount (mkWorld (Timers.mkLoop t nh []) m c cs)
  = mkWorld (Timers.mkLoop t nh []) false None cs.
Proof. destruct c; reflexivity. Qed.

(** The calls to [open()] of a view that is mounted, lives through [before],
    is torn down, and is followed for [after]: one if the delay had elapsed
    by the teardown, none otherwise. *)
Lemma opens_after_teardown t0 id0 before after :
  opens (elapses after (unmount (elapses before (fresh t0 id0))))
  = if 500 <=? total before then 1 else 0.
Proof.
  rewrite fresh_world, elapses_one_timer by lia.
  destruct (Nat.leb_spec (t0 + 500) (t0 + total before)) as [F|W];
    destruct (Nat.leb_spec 500 (total before)); try lia.
  - now rewrite unmount_fired, elapses_no_timer.
  - now rewrite unmount_pending, elapses_no_timer.
Qed.

(** X7.  When the connect view mounts with the session connected or the
    modal already open, the effect schedules nothing: no timer is pending,
    and however long the view lives [open()] is not called by it. *)
Lemma no_auto_open_otherwise h t0 id0 after :
  isConnected h || isOpened h = true ->
  scheduled (mount h (boot t0 id0)) = []
  /\ opens (elapses after (mount h (boot t0 id0))) = 0.
Proof.
  intros C. unfold mount, autoOpen.
  destruct h as [[|] [|]]; try discriminate; cbn [isConnected isOpened negb andb];
    cbn [boot loop calls]; (split; [reflexivity|]); now rewrite elapses_no_timer.
Qed.

(** C4.  Mounting the connect view while the session is disconnected and the
    modal is closed schedules one timer, due 500 ms later.  [open()] has not
    been called as long as less than 500 ms have gone by, and it has been
    called exactly once from then on, however much later one looks.  If the
    view is torn down before the 500 ms have gone by, the timer is removed
    and [open()] is never called. *)
Theorem auto_open_once_unless_torn_down (t0 id0 : nat) (dts after : list nat) :
  scheduled (fresh t0 id0) = [t0 + 500]
  /\ (total dts < 500 -> opens (elapses dts (fresh t0 id0)) = 0)
  /\ (500 <= total dts -> opens (elapses dts (fresh t0 id0)) = 1)
  /\ (total dts < 500 ->
      scheduled (unmount (elapses dts (fresh t0 id0))) = []
      /\ opens (elapses after (unmount (elapses dts (fresh t0 id0)))) = 0).
Proof.
  split; [reflexivity|].
  assert (E : opens (elapses dts (fresh t0 id0))
              = if 500 <=? total dts then 1 else 0).
  { rewrite fresh_world, elapses_one_timer by lia.
    destruct (Nat.leb_spec (t0 + 500) (t0 + total dts));
      destruct (Nat.leb_spec 500 (total dts)); try lia; reflexivity. }
  repeat split.
  - intros L. rewrite E. destruct (Nat.leb_spec 500 (total dts)); [lia | reflexivity].
  - intros L. rewrite E. destruct (Nat.leb_spec 500 (total dts)); [reflexivity | lia].
  - rewrite fresh_world, elapses_one_timer by lia.
    destruct (Nat.leb_spec (t0 + 500) (t0 + total dts)); [lia|].
    now rewrite unmount_pending.
  - rewrite opens_after_teardown.
    destruct (Nat.leb_spec 500 (total dts)); [lia | reflexivity].
Qed.

Lemma auto_open_witness :
  opens (elapses [200; 299] (fresh 1000 7)) = 0
  /\ opens (elapses [200; 300; 600] (fresh 1000 7)) = 1
  /\ opens (elapses [100; 900] (unmount (elapses [200; 299] (fresh 1000 7)))) = 0.
Proof.
  split; [|split].
  - apply (auto_open_once_unless_torn_down 1000 7 [200; 299] []). cbn; lia.
  - apply (auto_open_once_unless_torn_down 1000 7 [200; 300; 600] []). cbn; lia.
  - apply (auto_open_once_unless_torn_down 1000 7 [200; 299] [100; 900]). cbn; lia.
Defined.

End AutoOpen.

(** ** At most one pending connect attempt *)

Section OnePendingConnect.
Import ConnectButton.

Lemma handleConnect_suspends provider st :
  Async.pending (Async.run (handleConnect provider) st) = true
  /\ Async.state (Async.run (handleConnect provider) st)
     = mkState (Some provider) None.
Proof. split; reflexivity. Qed.

Lemma handleConnect_finishes env between provider st :
  let r := Async.resume env between (Async.run (handleConnect provider) st) in
  Async.pending r = false /\ activeProvider (Async.state r) = None.
Proof.
  cbn. destruct (env _ _) as [[]|error]; cbn; [auto|].
  destruct (JS.message_of error) as [m|]; cbn; [|auto].
  case_guard; cbn; auto.
Qed.

Lemma press_disabled provider w :
  isConnecting (hooks w) = true -> press provider w = w.
Proof.
  intros C. unfold press, pressable, render.
  destruct (isConnected (hooks w)); [reflexivity|].
  destruct provider; cbn; now rewrite C.
Qed.

Lemma quiet_or_busy_step ev w :
  Quiet w \/ Busy w -> Quiet (step ev w) \/ Busy (step ev w).
Proof.
  intros [Q|B]; destruct ev as [provider|env]; cbn [step].
  - (* a press while nothing is outstanding *)
    destruct Q as (I & A & C). unfold press.
    destruct (pressable provider w); [|left; now repeat split].
    destruct (handleConnect_suspends provider (ui w)) as [P S].
    rewrite P. right. exists provider, (ui w). cbn [inflight ui hooks isConnecting].
    rewrite I, S. now repeat split.
  - (* nothing to settle *)
    destruct Q as (I & A & C). unfold settle. rewrite I. left; now repeat split.
  - (* a press while an attempt is outstanding *)
    destruct B as (p & st & I & A & C).
    rewrite (press_disabled provider w C). right. now exists p, st.
  - (* the outstanding attempt settles *)
    destruct B as (p & st & I & A & C). unfold settle. rewrite I.
    destruct (handleConnect_finishes env (fun _ => ui w) p st) as [F N].
    cbv zeta in F, N. rewrite F. left. now repeat split.
Qed.

Lemma reachable_quiet_or_busy w : Reachable w -> Quiet w \/ Busy w.
Proof.
  induction 1 as [|w ev R IH].
  - left. now repeat split.
  - now apply quiet_or_busy_step.
Qed.

(** C5.  In every state the component can reach by presses of the provider
    buttons and settlements of [connect], at most one connect attempt is
    pending; and while one is pending the status is [pending] and a press of
    either provider button changes nothing: no second attempt starts. *)
Theorem one_pending_connect_attempt (w : World) :
  Reachable w ->
  pendingAttempts w <= 1
  /\ (pendingAttempts w = 1 ->
      status (hooks w) (ui w) = pending
      /\ forall provider, press provider w = w
                          /\ pendingAttempts (press provider w) = 1)
  /\ (pendingAttempts w = 0 -> status (hooks w) (ui w) = idle).
Proof.
  intros R. unfold pendingAttempts, status.
  destruct (reachable_quiet_or_busy w R) as [(I & A & C) | (p & st & I & A & C)];
    rewrite I, A; cbn [length].
  - split; [lia | split; [discriminate | reflexivity]].
  - rewrite C. split; [lia | split; [intros _ | discriminate]].
    split; [reflexivity|]. intros provider.
    rewrite (press_disabled provider w C). now rewrite I.
Qed.

Lemma one_pending_connect_witness :
  pendingAttempts (press google start) <= 1
  /\ press apple (press google start) = press google start.
Proof.
  assert (R : Reachable (press google start))
    by exact (reach_step start (Press google) reach_start).
  destruct (one_pending_connect_attempt (press google start) R) as (L & P & _).
  split.
  - exact L.
  - exact (proj1 (proj2 (P eq_refl) apple)).
Defined.

End OnePendingConnect.

(* ================================================================== *)
(** * Further properties of the handlers *)

(** ** Slices of strings *)

Lemma append_cancel_l (p x y : string) : p ++ x = p ++ y -> x = y.
Proof.
  induction p as [|c p IH]; simpl; intros H; [exact H|].
  injection H as H. now apply IH.
Qed.

Lemma string_app_assoc (a b c : string) : (a ++ b) ++ c = a ++ b ++ c.
Proof. induction a as [|x a IH]; simpl; [reflexivity | now rewrite IH]. Qed.

Lemma string_app_length (a b : string) :
  String.length (a ++ b) = (String.length a + String.length b)%nat.
Proof. induction a as [|x a IH]; simpl; [reflexivity | now rewrite IH]. Qed.

(** The characters of [s] from position [k], [m] of them, are in [s] right
    after its first [k] characters. *)
Lemma substring_split (s : string) : forall k m,
  (k + m <= String.length s)%nat ->
  exists a b,
    s = a ++ String.substring k m s ++ b
    /\ String.length a = k
    /\ String.length (String.substring k m s) = m.
Proof.
  induction s as [|c s IH]; intros k m L; simpl in L.
  - assert (k = 0%nat) by lia. assert (m = 0%nat) by lia. subst.
    now exists EmptyString, EmptyString.
  - destruct k as [|k].
    + destruct m as [|m].
      * now exists EmptyString, (String c s).
      * destruct (IH 0%nat m) as (a & b & E & La & Lm); [simpl; lia|].
        destruct a; [|discriminate]. simpl in E.
        exists EmptyString, b. simpl. repeat split; congruence.
    + destruct (IH k m) as (a & b & E & La & Lm); [lia|].
      exists (String c a), b. simpl. repeat split; congruence.
Qed.

Lemma substring_all (s : string) : forall m,
  (String.length s <= m)%nat -> String.substring 0 m s = s.
Proof.
  induction s as [|c s IH]; intros m L.
  - now destruct m.
  - destruct m as [|m]; simpl in *; [lia|]. rewrite IH; [reflexivity | lia].
Qed.

Lemma slice0_prefix (n : nat) (s : string) :
  exists rest,
    s = JS.slice0 n s ++ rest
    /\ String.length (JS.slice0 n s) = Nat.min n (String.length s).
Proof.
  unfold JS.slice0.
  destruct (Nat.le_gt_cases n (String.length s)) as [L|G].
  - destruct (substring_split s 0 n) as (a & b & E & La & Lm); [simpl; lia|].
    destruct a; [|discriminate]. exists b. split; [exact E | lia].
  - rewrite substring_all by lia. exists EmptyString. split; [|lia].
    clear. induction s as [|c s IH]; simpl; congruence.
Qed.

Lemma slice_last_suffix (n : nat) (s : string) :
  exists front,
    s = front ++ JS.slice_last n s
    /\ String.length (JS.slice_last n s) = Nat.min n (String.length s).
Proof.
  unfold JS.slice_last.
  destruct (Nat.le_gt_cases n (String.length s)) as [L|G].
  - destruct (substring_split s (String.length s - n) n) as (a & b & E & La & Lm);
      [lia|].
    assert (B : b = EmptyString).
    { apply (f_equal String.length) in E.
      rewrite !string_app_length, La, Lm in E.
      destruct b; [reflexivity | simpl in E; lia]. }
    subst b. exists a. split; [|lia].
    rewrite E at 1. f_equal.
    clear. induction (String.substring _ _ _) as [|c t IH]; simpl; congruence.
  - replace (String.length s - n)%nat with 0%nat by lia.
    rewrite substring_all by lia. exists EmptyString. split; [reflexivity | lia].
Qed.

(** ** Signing, copying and fetching: what success does *)

(** X1.  When the SDK resolves a sign request, the handler raises exactly
    one alert, titled "Signed!", whose text is "Signature: ", then the first
    sixteen characters of the signature (all of it when it is shorter), then
    three dots; nothing else happens, and the signing flag is down again. *)
Theorem sign_success_shows_signature_prefix (h : WalletInfo.Hooks) (time : Z)
    (between : WalletInfo.State -> WalletInfo.State) (st : WalletInfo.State)
    (sig : string) :
  let head := JS.slice0 16 sig in
  (exists rest, sig = head ++ rest)
  /\ String.length head = Nat.min 16 (String.length sig)
  /\ (Async.pending (Async.run (WalletInfo.handleSignSolanaMessage h time) st) = true ->
      let r := Async.attempt (solanaSigning (Resolved (mkSigned sig))) between
                 (WalletInfo.handleSignSolanaMessage h time) st in
      Async.trace r = [Alert_alert "Signed! ✓" ("Signature: " ++ head ++ "...")]
      /\ WalletInfo.isSigning (Async.state r) = false
      /\ Async.completion r = Some (Async.Normal tt))
  /\ (Async.pending (Async.run (WalletInfo.handleSignEthereumMessage h time) st) = true ->
      let r := Async.attempt (ethereumSigning (Resolved sig)) between
                 (WalletInfo.handleSignEthereumMessage h time) st in
      Async.trace r = [Alert_alert "Signed! ✓" ("Signature: " ++ head ++ "...")]
      /\ WalletInfo.isSigning (Async.state r) = false
      /\ Async.completion r = Some (Async.Normal tt)).
Proof.
  destruct (slice0_prefix 16 sig) as (rest & E & L).
  split; [now exists rest|]. split; [exact L|]. split.
  - unfold WalletInfo.handleSignSolanaMessage.
    case_guard; [discriminate|]. intros _. repeat split.
  - unfold WalletInfo.handleSignEthereumMessage.
    destruct (WalletInfo.ethereumAccount h) as [acc|].
    + case_guard; [discriminate|]. intros _. repeat split.
    + cbn [WalletInfo.address_of option_map JS.truthy negb].
      rewrite Bool.orb_true_r. discriminate.
Qed.

Lemma sign_success_witness :
  Async.trace (Async.attempt (solanaSigning (Resolved (mkSigned "0123456789abcdefXYZ")))
                 (fun st => st)
                 (WalletInfo.handleSignSolanaMessage bothChains 0) WalletInfo.initial)
  = [Alert_alert "Signed! ✓" "Signature: 0123456789abcdef..."].
Proof.
  destruct (sign_success_shows_signature_prefix bothChains 0%Z (fun st => st)
              WalletInfo.initial "0123456789abcdefXYZ")
    as (_ & _ & S & _).
  exact (proj1 (S eq_refl)).
Defined.

(** X2.  [handleCopy] asks the clipboard for the address it is given and
    touches no component state.  The confirmation alert, which names the
    chain, is raised only when the clipboard write resolves; when it rejects,
    no alert is raised and the rejection leaves the handler uncaught. *)
Theorem copy_confirms_only_on_success (addr chain : string) (o : Outcome unit)
    (between : WalletInfo.State -> WalletInfo.State) (st : WalletInfo.State) :
  let paused := Async.run (WalletInfo.handleCopy addr chain) st in
  let r := Async.attempt (copying o) between (WalletInfo.handleCopy addr chain) st in
  Async.awaiting paused = Some (Async.anyCall (copyToClipboard addr))
  /\ Async.state paused = st
  /\ Async.state r = between st
  /\ match o with
     | Resolved _ =>
         Async.completion r = Some (Async.Normal tt)
         /\ Async.trace r
            = [Alert_alert "Copied!" (chain ++ " address copied to clipboard")]
     | Rejected error =>
         Async.completion r = Some (Async.Uncaught error)
         /\ Async.trace r = []
     end.
Proof.
  unfold Async.attempt; cbn. destruct o as [[]|error]; cbn; repeat split.
Qed.

(** X3.  Two balance lookups may be outstanding at once, and the component
    does not tell them apart.  While both are outstanding the balance row
    shows the spinner; as soon as one settles the spinner is gone, although
    the other is still outstanding; and the balance that stays is the one of
    the lookup that resolved last, whichever was started first: a reply to
    the older request that comes late replaces the newer one's. *)
Theorem overlapping_lookups_last_reply_wins (a1 a2 : string) (o1 : Outcome float)
    (v2 : float) (toFixed : float -> nat -> string) (st : WalletInfo.State) :
  let first := Async.run (WalletInfo.fetchBalance a1) st in
  let second := Async.run (WalletInfo.fetchBalance a2) (Async.state first) in
  let both := Async.state second in
  (* the older request settles first, then the newer one *)
  let s1 := Async.state (Async.resume (balanceLookup o1) (fun _ => both) first) in
  let s12 := Async.state (Async.resume (balanceLookup (Resolved v2)) (fun _ => s1) second) in
  (* the newer request settles first, then the older one *)
  let s2 := Async.state (Async.resume (balanceLookup (Resolved v2)) (fun _ => both) second) in
  let s21 := Async.state (Async.resume (balanceLookup o1) (fun _ => s2) first) in
  WalletInfo.balanceRow toFixed both = WalletInfo.BalanceSpinner
  /\ WalletInfo.isLoadingBalance s1 = false
  /\ WalletInfo.isLoadingBalance s2 = false
  /\ WalletInfo.solBalance s12 = Some v2
  /\ WalletInfo.solBalance s21
     = match o1 with
       | Resolved v1 => Some v1
       | Rejected _ => Some v2
       end.
Proof.
  cbn. destruct o1 as [v1|error]; cbn; repeat split.
Qed.

(** X4.  Fetching the balance and signing do not touch each other's state:
    a balance lookup, from its start to its end, leaves the signing flag as
    it finds it, and a sign attempt leaves the balance and the loading
    indicator as it finds them. *)
Theorem balance_and_signing_are_independent (env : Oracle)
    (between : WalletInfo.State -> WalletInfo.State) (st : WalletInfo.State) :
  (forall addr,
     let paused := Async.state (Async.run (WalletInfo.fetchBalance addr) st) in
     WalletInfo.isSigning paused = WalletInfo.isSigning st
     /\ WalletInfo.isSigning
          (Async.state (Async.attempt env between (WalletInfo.fetchBalance addr) st))
        = WalletInfo.isSigning (between paused))
  /\ (forall c h time,
     Async.pending (Async.run (WalletInfo.handleSign c h time) st) = true ->
     let paused := Async.state (Async.run (WalletInfo.handleSign c h time) st) in
     let r := Async.attempt env between (WalletInfo.handleSign c h time) st in
     WalletInfo.solBalance paused = WalletInfo.solBalance st
     /\ WalletInfo.isLoadingBalance paused = WalletInfo.isLoadingBalance st
     /\ WalletInfo.solBalance (Async.state r) = WalletInfo.solBalance (between paused)
     /\ WalletInfo.isLoadingBalance (Async.state r)
        = WalletInfo.isLoadingBalance (between paused)).
Proof.
  split.
  - intros addr. unfold Async.attempt; cbn. destruct (env _ _); cbn; split; reflexivity.
  - intros c h time. destruct c; cbn [WalletInfo.handleSign];
      unfold WalletInfo.handleSignSolanaMessage, WalletInfo.handleSignEthereumMessage.
    + case_guard; [discriminate|]. intros _.
      unfold Async.attempt; cbn. destruct (env _ _) as [sig|error]; cbn; [repeat split|].
      unfold WalletInfo.signFailed. case_guard; cbn; repeat split.
    + destruct (WalletInfo.ethereumAccount h) as [acc|].
      * case_guard; [discriminate|]. intros _.
        unfold Async.attempt; cbn.
        destruct (env _ _) as [sig|error]; cbn; [repeat split|].
        unfold WalletInfo.signFailed. case_guard; cbn; repeat split.
      * cbn [WalletInfo.address_of option_map JS.truthy negb].
        rewrite Bool.orb_true_r. discriminate.
Qed.

Lemma balance_and_signing_witness :
  WalletInfo.solBalance
    (Async.state (Async.attempt (rejecting None) (fun s => s)
                    (WalletInfo.handleSign WalletInfo.Ethereum bothChains 0)
                    (WalletInfo.mkState None true false)))
  = None
  /\ WalletInfo.isLoadingBalance
       (Async.state (Async.attempt (rejecting None) (fun s => s)
                       (WalletInfo.handleSign WalletInfo.Ethereum bothChains 0)
                       (WalletInfo.mkState None true false)))
     = true.
Proof.
  destruct (balance_and_signing_are_independent (rejecting None) (fun s => s)
              (WalletInfo.mkState None true false)) as [_ S].
  destruct (S WalletInfo.Ethereum bothChains 0%Z eq_refl) as (_ & _ & B & L).
  split; [exact B | exact L].
Defined.

(** ** The connect buttons: the inline error *)

(** X5.  After a connect attempt failed with a message that is not empty and
    does not contain "cancelled", the buttons are followed by the line
    "Error: " and that message.  The line is gone as soon as the next attempt
    starts, and it stays gone when that attempt succeeds or is cancelled: a
    success navigates forward and shows nothing else. *)
Theorem connect_error_line_lifecycle (m : string) :
  m <> EmptyString ->
  JS.includes m "cancelled" = false ->
  (forall provider between st,
     ConnectButton.errorLine
       (Async.state (Async.attempt (rejecting (thrown (Some m))) between
                       (ConnectButton.handleConnect provider) st))
     = Some ("Error: " ++ m))
  /\ (forall provider st,
     ConnectButton.errorLine
       (Async.state (Async.run (ConnectButton.handleConnect provider) st))
     = None)
  /\ (forall provider st,
     let r := Async.attempt (connecting (Resolved tt)) (fun s => s)
                (ConnectButton.handleConnect provider) st in
     ConnectButton.errorLine (Async.state r) = None
     /\ Async.trace r = [router_push "/wallet"])
  /\ (forall pre post provider st,
     ConnectButton.errorLine
       (Async.state (Async.attempt
                       (rejecting (thrown (Some (pre ++ "cancelled" ++ post))))
                       (fun s => s) (ConnectButton.handleConnect provider) st))
     = None).
Proof.
  intros N C. repeat split.
  - intros provider between st. unfold Async.attempt; cbn. rewrite C.
    destruct m; [congruence | reflexivity].
  - intros pre post provider st.
    assert (I : JS.includes (pre ++ "cancelled" ++ post) "cancelled" = true)
      by (apply includes_iff_substring; eauto).
    revert I. generalize (pre ++ "cancelled" ++ post). intros mm I.
    unfold Async.attempt; cbn. rewrite I. cbn. now rewrite Bool.andb_false_r.
Qed.

Lemma connect_error_line_witness :
  ConnectButton.errorLine
    (Async.state (Async.attempt (rejecting (thrown (Some "Network error")))
                    (fun s => s) (ConnectButton.handleConnect apple)
                    ConnectButton.initial))
  = Some "Error: Network error".
Proof.
  assert (N : "Network error" <> EmptyString) by discriminate.
  exact (proj1 (connect_error_line_lifecycle "Network error" N eq_refl)
           apple (fun s => s) ConnectButton.initial).
Defined.

(** X6.  Where the marker stands in the message does not matter.  An error
    of a connect attempt with a non-empty message raises no alert exactly
    when the message is some text, then "cancelled", then some text; and so
    does an error of a sign attempt, on either chain, with any message, the
    empty one included. *)
Theorem suppressed_iff_marker_inside (m : string) :
  (m <> EmptyString ->
   forall provider between st,
     alerts (Async.trace (Async.attempt (rejecting (thrown (Some m))) between
                            (ConnectButton.handleConnect provider) st)) = []
     <-> exists pre post, m = pre ++ "cancelled" ++ post)
  /\ (forall h time between st,
     WalletInfo.isSolanaAvailable h = true ->
     WalletInfo.solana h <> None ->
     (alerts (Async.trace (Async.attempt (rejecting (thrown (Some m))) between
                             (WalletInfo.handleSignSolanaMessage h time) st)) = []
      <-> exists pre post, m = pre ++ "cancelled" ++ post))
  /\ (forall h time between st,
     WalletInfo.isEthereumAvailable h = true ->
     WalletInfo.ethereum h <> None ->
     JS.truthy (WalletInfo.address_of (WalletInfo.ethereumAccount h)) = true ->
     (alerts (Async.trace (Async.attempt (rejecting (thrown (Some m))) between
                             (WalletInfo.handleSignEthereumMessage h time) st)) = []
      <-> exists pre post, m = pre ++ "cancelled" ++ post)).
Proof.
  assert (G : forall c h time between st,
             Async.pending (Async.run (WalletInfo.handleSign c h time) st) = true ->
             (alerts (Async.trace (Async.attempt (rejecting (thrown (Some m)))
                                     between (WalletInfo.handleSign c h time) st))
              = []
              <-> exists pre post, m = pre ++ "cancelled" ++ post)).
  { intros c h time between st P.
    rewrite (sign_rejected _ _ _ _ _ _ P).
    rewrite <- includes_iff_substring.
    unfold WalletInfo.signFailed; cbn.
    destruct (JS.includes m "cancelled"); cbn; split; congruence. }
  split; [|split].
  - intros N provider between st.
    rewrite (connect_rejected_nonempty m provider between st N).
    rewrite <- includes_iff_substring.
    destruct (JS.includes m "cancelled"); split; congruence.
  - intros h time between st A S.
    apply (G WalletInfo.Solana). now apply solana_sign_starts.
  - intros h time between st A S T.
    apply (G WalletInfo.Ethereum). now apply ethereum_sign_starts.
Qed.

Lemma suppressed_iff_marker_witness :
  alerts (Async.trace (Async.attempt
                         (rejecting (thrown (Some "User cancelled the request")))
                         (fun s => s) (ConnectButton.handleConnect google)
                         ConnectButton.initial))
  = []
  /\ alerts (Async.trace (Async.attempt
                            (rejecting (thrown (Some "Signing was cancelled")))
                            (fun s => s)
                            (WalletInfo.handleSignSolanaMessage bothChains 0)
                            WalletInfo.initial))
     = []
  /\ (alerts (Async.trace (Async.attempt
                             (rejecting (thrown (Some EmptyString)))
                             (fun s => s)
                             (WalletInfo.handleSignEthereumMessage bothChains 0)
                             WalletInfo.initial))
      = []
      <-> exists pre post, EmptyString = pre ++ "cancelled" ++ post).
Proof.
  assert (N : "User cancelled the request" <> EmptyString) by discriminate.
  split; [|split].
  - apply (proj1 (suppressed_iff_marker_inside "User cancelled the request") N
             google (fun s => s) ConnectButton.initial).
    now exists "User ", " the request".
  - apply (proj1 (proj2 (suppressed_iff_marker_inside "Signing was cancelled"))
             bothChains 0%Z (fun s => s) WalletInfo.initial);
      [reflexivity | discriminate |].
    now exists "Signing was ", EmptyString.
  - apply (proj2 (proj2 (suppressed_iff_marker_inside EmptyString))
             bothChains 0%Z (fun s => s) WalletInfo.initial);
      [reflexivity | discriminate | reflexivity].
Defined.

(** ** The modal variant: the button and the timer *)

Section ManualOpen.
Import ModalConnectButton.
Local Open Scope nat_scope.

Lemma opens_snoc_open cs :
  length (filter (fun e => match e with modal_open => true | _ => false end)
                 (cs ++ [modal_open]))
  = S (length (filter (fun e => match e with modal_open => true | _ => false end) cs)).
Proof.
  rewrite filter_app, length_app. cbn. lia.
Qed.

(** X8.  Pressing the login button calls [open()] at once, and it does not
    cancel the timer of the auto-open: a user who presses the button before
    the 500 ms have gone by gets a second call of [open()] when they have. *)
Theorem manual_open_keeps_the_timer (t0 id0 : nat) (before after : list nat) :
  opens (elapses after (pressLogin (elapses before (fresh t0 id0))))
  = 1 + (if 500 <=? total before + total after then 1 else 0).
Proof.
  rewrite fresh_world, elapses_one_timer by lia.
  destruct (Nat.leb_spec (t0 + 500) (t0 + total before)) as [F|W].
  - unfold pressLogin; cbn [mounted loop cleanup calls].
    rewrite elapses_no_timer. unfold opens; cbn [calls].
    destruct (Nat.leb_spec 500 (total before + total after)); [reflexivity | lia].
  - unfold pressLogin; cbn [mounted loop cleanup calls].
    rewrite elapses_one_timer by lia.
    destruct (Nat.leb_spec (t0 + 500) (t0 + total before + total after));
      destruct (Nat.leb_spec 500 (total before + total after)); try lia;
      reflexivity.
Qed.

End ManualOpen.

Lemma no_auto_open_witness :
  ModalConnectButton.scheduled
    (ModalConnectButton.mount (ModalConnectButton.mkHooks true false)
                              (ModalConnectButton.boot 40 3))
  = []
  /\ ModalConnectButton.opens
       (ModalConnectButton.elapses [400; 400]
          (ModalConnectButton.mount (ModalConnectButton.mkHooks true false)
                                    (ModalConnectButton.boot 40 3)))
     = 0%nat.
Proof.
  exact (no_auto_open_otherwise (ModalConnectButton.mkHooks true false) 40 3
           [400; 400]%nat eq_refl).
Defined.

(** ** The connect buttons over all runs *)

Section ConnectRuns.
Import ConnectButton.

(** X9.  In every state the component reaches, what the two buttons show
    follows the pending attempt: they are disabled together, they are
    disabled exactly when an attempt is pending, and then exactly one of
    them shows the spinner; when nothing is drawn, the session is connected. *)
Theorem buttons_follow_the_pending_attempt (w : World) :
  Reachable w ->
  match render (hooks w) (ui w) with
  | Some v =>
      googleDisabled v = appleDisabled v
      /\ (googleDisabled v = true <-> pendingAttempts w = 1%nat)
      /\ xorb (googleSpinner v) (appleSpinner v) = googleDisabled v
  | None => isConnected (hooks w) = true
  end.
Proof.
  intros R. unfold render, pendingAttempts.
  destruct (isConnected (hooks w)); [reflexivity|].
  cbn [googleDisabled appleDisabled googleSpinner appleSpinner].
  destruct (reachable_quiet_or_busy w R) as [(I & A & C) | (p & st & I & A & C)];
    unfold spins; rewrite I, A, C; cbn [length].
  - repeat split; discriminate.
  - destruct p; repeat split.
Qed.

Lemma buttons_follow_witness :
  match render (hooks (press apple start)) (ui (press apple start)) with
  | Some v =>
      googleDisabled v = appleDisabled v
      /\ (googleDisabled v = true <-> pendingAttempts (press apple start) = 1%nat)
      /\ xorb (googleSpinner v) (appleSpinner v) = googleDisabled v
  | None => isConnected (hooks (press apple start)) = true
  end.
Proof.
  exact (buttons_follow_the_pending_attempt (press apple start)
           (reach_step start (Press apple) reach_start)).
Defined.

Lemma alerts_app (t1 t2 : list Effect) : alerts (t1 ++ t2) = (alerts t1 ++ alerts t2)%list.
Proof. unfold alerts. apply flat_map_app. Qed.

Lemma handleConnect_alerts_honest env between provider st :
  Forall honest
    (alerts (Async.trace (Async.resume env between
                            (Async.run (handleConnect provider) st)))).
Proof.
  cbn. destruct (env _ _) as [[]|error]; cbn; [constructor|].
  destruct (JS.message_of error) as [m|]; cbn; [|constructor].
  destruct (JS.includes m "cancelled") eqn:I;
    destruct m as [|c m]; cbn; try constructor; [|constructor].
  unfold honest; cbn [fst snd]. repeat split; [discriminate | exact I].
Qed.

Lemma step_alerts_honest ev w :
  Quiet w \/ Busy w ->
  Forall honest (alerts (shown w)) ->
  Forall honest (alerts (shown (step ev w))).
Proof.
  intros QB H. destruct ev as [provider|env]; cbn [step].
  - unfold press. destruct (pressable provider w); [|exact H].
    destruct (handleConnect_suspends provider (ui w)) as [P _]. rewrite P.
    cbn [shown]. rewrite alerts_app. apply Forall_app. split; [exact H | constructor].
  - unfold settle. destruct QB as [(I & _) | (p & st & I & _)]; rewrite I; [exact H|].
    cbn [shown]. rewrite alerts_app. apply Forall_app. split; [exact H|].
    apply handleConnect_alerts_honest.
Qed.

(** X10.  Whatever the user presses and however the connect calls settle,
    every alert the component has raised is a "Connection Failed" alert whose
    message is not empty and does not contain "cancelled": a cancellation is
    never put in front of the user. *)
Theorem never_alerts_a_cancellation (w : World) :
  Reachable w -> Forall honest (alerts (shown w)).
Proof.
  induction 1 as [|w ev R IH].
  - constructor.
  - apply step_alerts_honest; [now apply reachable_quiet_or_busy | exact IH].
Qed.

Lemma never_alerts_witness :
  Forall honest
    (alerts (shown (settle (rejecting (thrown (Some "User cancelled")))
                      (press google
                         (settle (rejecting (thrown (Some "Timeout")))
                            (press apple start)))))).
Proof.
  apply never_alerts_a_cancellation.
  apply (reach_step _ (Settle _)), (reach_step _ (Press _)),
        (reach_step _ (Settle _)), (reach_step _ (Press _)), reach_start.
Defined.

End ConnectRuns.

(** ** The dashboard: header, loading view and requests *)

Lemma append_overlap (a : string) : forall b c d,
  a ++ b = c ++ d ->
  (String.length a <= String.length c)%nat ->
  exists mid, c = a ++ mid /\ b = mid ++ d.
Proof.
  induction a as [|x a IH]; intros b c d E L.
  - exists c. now split.
  - destruct c as [|y c]; simpl in L; [lia|].
    simpl in E. injection E as -> E.
    destruct (IH b c d E) as (mid & -> & ->); [lia|].
    now exists mid.
Qed.

(** X11.  On the loading view no header is drawn.  Once the dashboard has
    left the loading view, the header shows a wallet identifier that is there
    and not empty as its first eight characters, three dots, and its last
    four characters.  For an identifier of twelve characters or more these
    are two separate ends of it; an identifier of four characters or fewer
    is written out in full on both sides of the dots. *)
Theorem wallet_id_label_shape (h : WalletInfo.Hooks) (id : string) :
  WalletInfo.walletId h = Some id ->
  id <> EmptyString ->
  let head := JS.slice0 8 id in
  let tail := JS.slice_last 4 id in
  (WalletInfo.loading h = true -> WalletInfo.walletIdLabel h = None)
  /\ (WalletInfo.loading h = false ->
      WalletInfo.walletIdLabel h = Some (head ++ "..." ++ tail))
  /\ String.length head = Nat.min 8 (String.length id)
  /\ String.length tail = Nat.min 4 (String.length id)
  /\ (exists rest, id = head ++ rest)
  /\ (exists front, id = front ++ tail)
  /\ ((12 <= String.length id)%nat -> exists mid, id = head ++ mid ++ tail)
  /\ ((String.length id <= 4)%nat -> head = id /\ tail = id).
Proof.
  intros W N head tail.
  destruct (slice0_prefix 8 id) as (rest & E & L).
  destruct (slice_last_suffix 4 id) as (front & F & M).
  fold head in E, L. fold tail in F, M.
  split; [|split;
    [|split; [exact L|split; [exact M|split; [eauto|split; [eauto|split]]]]]].
  - intros G. unfold WalletInfo.walletIdLabel. now rewrite G.
  - intros G. unfold WalletInfo.walletIdLabel. rewrite G, W.
    destruct id; [congruence | reflexivity].
  - intros B.
    assert (Lf : (String.length front = String.length id - 4)%nat).
    { apply (f_equal String.length) in F. rewrite string_app_length in F. lia. }
    destruct (append_overlap head rest front tail) as (mid & Hf & Hr);
      [congruence | lia |].
    exists mid. now rewrite <- Hr.
  - intros S. split.
    + unfold head, JS.slice0. apply substring_all. lia.
    + unfold tail, JS.slice_last.
      replace (String.length id - 4)%nat with 0%nat by lia.
      apply substring_all. lia.
Qed.

Lemma wallet_id_label_witness :
  WalletInfo.loading
    (WalletInfo.mkHooks (Some [WalletInfo.mkAddress AddressType.solana "A"])
                        true (Some "wallet-0123456789") false None false None false)
  = false
  /\ WalletInfo.walletIdLabel
       (WalletInfo.mkHooks (Some [WalletInfo.mkAddress AddressType.solana "A"])
                           true (Some "wallet-0123456789") false None false None false)
     = Some "wallet-0...6789"
  /\ WalletInfo.walletIdLabel
       (WalletInfo.mkHooks None true (Some "wallet-0123456789") false
                           None false None false)
     = None.
Proof.
  assert (N : "wallet-0123456789" <> EmptyString) by discriminate.
  split; [reflexivity | split].
  - exact (proj1 (proj2 (wallet_id_label_shape
                           (WalletInfo.mkHooks
                              (Some [WalletInfo.mkAddress AddressType.solana "A"])
                              true (Some "wallet-0123456789") false
                              None false None false)
                           "wallet-0123456789" eq_refl N))
             eq_refl).
  - exact (proj1 (wallet_id_label_shape
                    (WalletInfo.mkHooks None true (Some "wallet-0123456789") false
                                        None false None false)
                    "wallet-0123456789" eq_refl N)
             eq_refl).
Defined.

Section Dashboard.
Import WalletInfo.

Lemma selectAccount_none (addrs : option (list AddressEntry)) (chainType : string) :
  selectAccount addrs chainType = None
  <-> forall l, addrs = Some l -> Forall (fun e => addressType e <> chainType) l.
Proof.
  destruct addrs as [l|]; cbn [selectAccount].
  - pose proof (find_first_match chainType l) as H.
    destruct (find _ l) as [e|]; split.
    + discriminate.
    + intros A. specialize (A l eq_refl).
      destruct H as (pre & post & -> & T & _).
      apply Forall_app in A. destruct A as [_ A]. inversion A; subst. congruence.
    + intros _ l' [= <-]. exact H.
    + reflexivity.
  - split; [intros _ l; discriminate | reflexivity].
Qed.

(** X12.  The dashboard stays on the loading view exactly when the session
    has no address list or a list without any Solana or Ethereum entry; and
    on the loading view no sign button can be pressed. *)
Theorem loading_iff_no_supported_chain (h : Hooks) :
  (loading h = true
   <-> forall l, addresses h = Some l ->
         Forall (fun e => addressType e <> AddressType.solana
                          /\ addressType e <> AddressType.ethereum) l)
  /\ (loading h = true ->
      forall c time st, pressSign c h time st = Async.Done (Async.Normal tt) st []).
Proof.
  assert (P : forall o : option AddressEntry,
             negb (JS.present o) = true <-> o = None).
  { intros [e|]; cbn; split; congruence. }
  split.
  - unfold loading. rewrite Bool.andb_true_iff, !P.
    unfold solanaAccount, ethereumAccount. rewrite !selectAccount_none.
    split.
    + intros [S E] l A. specialize (S l A). specialize (E l A).
      rewrite Forall_forall in *. intros e I. split; [now apply S | now apply E].
    + intros H. split; intros l A; specialize (H l A);
        rewrite Forall_forall in *; intros e I; now apply H.
  - intros L c time st. unfold pressSign, cardShown. now rewrite L.
Qed.

Lemma loading_witness :
  loading (mkHooks (Some [mkAddress "bitcoin" "bc1q"]) true None false
                   (Some signer) true (Some signer) true)
  = true.
Proof.
  apply (proj1 (loading_iff_no_supported_chain _)).
  intros l [= <-]. repeat constructor; discriminate.
Defined.

(** X13.  What the dashboard asks of its collaborators.  The Ethereum sign
    action, when it starts, asks for a personal signature of the greeting
    with the timestamp, for the address of the Ethereum account, which is
    not empty; the Solana sign action asks for a signature of the greeting;
    the balance effect, when it starts a lookup, asks for the balance of the
    address of the Solana account, which is not empty. *)
Theorem requests_name_the_account (h : Hooks) (time : Z) (st : State) :
  (Async.pending (Async.run (handleSignEthereumMessage h time) st) = true ->
   exists acc,
     ethereumAccount h = Some acc
     /\ address acc <> EmptyString
     /\ Async.awaiting (Async.run (handleSignEthereumMessage h time) st)
        = Some (Async.anyCall
                  (ethereum_signPersonalMessage (greeting time) (address acc))))
  /\ (Async.pending (Async.run (handleSignSolanaMessage h time) st) = true ->
      Async.awaiting (Async.run (handleSignSolanaMessage h time) st)
      = Some (Async.anyCall (solana_signMessage (greeting time))))
  /\ (Async.pending (Async.run (balanceEffect h) st) = true ->
      exists acc,
        solanaAccount h = Some acc
        /\ address acc <> EmptyString
        /\ Async.awaiting (Async.run (balanceEffect h) st)
           = Some (Async.anyCall (getBalance (address acc)))).
Proof.
  repeat split.
  - unfold handleSignEthereumMessage.
    destruct (ethereumAccount h) as [acc|].
    + destruct (address acc) as [|c a] eqn:A; cbn [address_of option_map JS.truthy negb];
        rewrite A.
      * rewrite Bool.orb_true_r. discriminate.
      * case_guard; [discriminate|]. intros _. exists acc.
        rewrite A. repeat split. discriminate.
    + cbn [address_of option_map JS.truthy negb].
      rewrite Bool.orb_true_r. discriminate.
  - unfold handleSignSolanaMessage. case_guard; [discriminate | reflexivity].
  - unfold balanceEffect.
    destruct (solanaAccount h) as [acc|]; cbn [address_of option_map]; [|discriminate].
    destruct (address acc) as [|c a] eqn:A; cbn [JS.truthy]; [discriminate|].
    intros _. exists acc. rewrite A. repeat split. discriminate.
Qed.

Lemma requests_witness :
  Async.awaiting (Async.run (handleSignSolanaMessage bothChains 1700000000000)
                            initial)
  = Some (Async.anyCall
            (solana_signMessage "Hello from Phantom SDK! Timestamp: 1700000000000")).
Proof.
  exact (proj1 (proj2 (requests_name_the_account bothChains 1700000000000 initial))
           eq_refl).
Defined.

End Dashboard.

(** ** The message that is signed *)

Lemma string_of_Z_inj (a b : Z) : JS.string_of_Z a = JS.string_of_Z b -> a = b.
Proof.
  unfold JS.string_of_Z. intros E.
  assert (P : forall z, NilZero.int_of_string (NilZero.string_of_int (Z.to_int z))
                        = Some (Z.to_int z)).
  { intros z. apply NilZero.isi; destruct z; cbn; try discriminate;
      intros [= H]; now apply (Unsigned.to_uint_nonnil p). }
  apply DecimalZ.to_int_inj.
  pose proof (P a) as Pa. rewrite E, P in Pa. congruence.
Qed.

(** X14.  The message handed to the signer determines the timestamp it was
    made at: two sign requests carry the same message only when [Date.now()]
    gave the same value, so requests made at different milliseconds never
    sign the same text. *)
Theorem greeting_determines_timestamp (t1 t2 : Z) :
  WalletInfo.greeting t1 = WalletInfo.greeting t2 <-> t1 = t2.
Proof.
  split; [|now intros ->].
  unfold WalletInfo.greeting. intros E.
  apply append_cancel_l in E. now apply string_of_Z_inj.
Qed.

Lemma greeting_witness :
  WalletInfo.greeting 1700000000000 = WalletInfo.greeting (1699999999999 + 1).
Proof.
  apply (proj2 (greeting_determines_timestamp 1700000000000 (1699999999999 + 1))).
  reflexivity.
Defined.

(** ** Logging in and out *)

(** X15.  A login through a provider button sets off the push of
    [handleConnect] and the redirect of HomeScreen, in either order.  In both
    orders the user ends on the dashboard and the back stack has one entry
    more: the home view when the push came first, the dashboard when the
    redirect did.  Logging out then puts the home view in the place of the
    dashboard, whichever of the handler and the session observer comes
    first, and leaves that entry on the back stack.  A login that only the
    session observer carries out, as with the modal, replaces the home view,
    and logging out then brings the navigation back to exactly what it was. *)
Theorem login_then_logout_returns_home (redirectFirst logoutFirst : bool)
    (provider : AuthProvider) (back : list string)
    (bC : ConnectButton.State -> ConnectButton.State) (stC : ConnectButton.State)
    (bW : WalletInfo.State -> WalletInfo.State) (stW : WalletInfo.State) :
  let login := Async.trace (Async.attempt (connecting (Resolved tt)) bC
                              (ConnectButton.handleConnect provider) stC) in
  let logout := Async.trace (Async.attempt (disconnecting (Resolved tt)) bW
                               WalletInfo.handleDisconnect stW) in
  let home := Router.mkNav "/" back in
  let left := (if redirectFirst then "/wallet" else "/") :: back in
  buttonLogin redirectFirst login home = Router.mkNav "/wallet" left
  /\ onSessionChange true (buttonLogin redirectFirst login home)
     = buttonLogin redirectFirst login home
  /\ buttonLogout logoutFirst logout (buttonLogin redirectFirst login home)
     = Router.mkNav "/" left
  /\ onSessionChange true home = Router.mkNav "/wallet" back
  /\ buttonLogout logoutFirst logout (onSessionChange true home) = home.
Proof.
  destruct redirectFirst, logoutFirst; repeat split.
Qed.

(** ** At most one sign request over all runs of the dashboard *)

Section OneSignRequest.
Import WalletInfo Dashboard.

Lemma pick_split {A : Type} (l : list A) : forall i y rest,
  pick i l = Some (y, rest) ->
  exists l1 l2, l = (l1 ++ y :: l2)%list /\ rest = (l1 ++ l2)%list.
Proof.
  induction l as [|x l IH]; intros i y rest P; [destruct i; discriminate|].
  destruct i as [|j]; cbn in P.
  - injection P as <- <-. now exists [], l.
  - destruct (pick j l) as [[z r]|] eqn:E; [|discriminate].
    injection P as <- <-.
    destruct (IH j z r E) as (l1 & l2 & -> & ->).
    now exists (x :: l1), l2.
Qed.

(** A sign handler either stops at its guard, leaving everything as it was,
    or raises the flag and waits for a sign call. *)
Lemma sign_stops_or_waits c h time st :
  Async.run (handleSign c h time) st = Async.Done (Async.Normal tt) st []
  \/ (Async.pending (Async.run (handleSign c h time) st) = true
      /\ signing (Async.run (handleSign c h time) st) = true
      /\ Async.trace (Async.run (handleSign c h time) st) = []
      /\ isSigning (Async.state (Async.run (handleSign c h time) st)) = true).
Proof.
  destruct c; cbn [handleSign];
    unfold handleSignSolanaMessage, handleSignEthereumMessage.
  - case_guard; [left; reflexivity | right; repeat split].
  - destruct (ethereumAccount h) as [acc|].
    + case_guard; [left; reflexivity | right; repeat split].
    + cbn [address_of option_map JS.truthy negb].
      rewrite Bool.orb_true_r. left; reflexivity.
Qed.

Lemma sign_task_settles r env s :
  SignTask r ->
  signing r = true
  /\ Async.pending (Async.resume env (fun _ => s) r) = false
  /\ isSigning (Async.state (Async.resume env (fun _ => s) r)) = false.
Proof.
  intros (c & h & time & st & -> & P).
  destruct (sign_stops_or_waits c h time st) as [D | (_ & S & _)];
    [rewrite D in P; discriminate|].
  split; [exact S|].
  revert P. destruct c; cbn [handleSign];
    unfold handleSignSolanaMessage, handleSignEthereumMessage.
  - case_guard; [discriminate|]. intros _. cbn.
    destruct (env _ _) as [sig|error]; cbn; [auto|].
    unfold signFailed. case_guard; cbn; auto.
  - destruct (ethereumAccount h) as [acc|].
    + case_guard; [discriminate|]. intros _. cbn.
      destruct (env _ _) as [sig|error]; cbn; [auto|].
      unfold signFailed. case_guard; cbn; auto.
    + cbn [address_of option_map JS.truthy negb].
      rewrite Bool.orb_true_r. discriminate.
Qed.

Lemma fetchBalance_frame addr st env s :
  signing (Async.run (fetchBalance addr) st) = false
  /\ isSigning (Async.state (Async.run (fetchBalance addr) st)) = isSigning st
  /\ Async.pending (Async.resume env (fun _ => s) (Async.run (fetchBalance addr) st))
     = false
  /\ isSigning (Async.state (Async.resume env (fun _ => s)
                               (Async.run (fetchBalance addr) st)))
     = isSigning s.
Proof.
  cbn. destruct (env _ _); cbn; auto.
Qed.

(** The other handlers leave the signing flag alone, before and after the
    call they wait for, and they wait for no sign call. *)
Lemma other_action_frame a h st env s :
  (forall c time, a <> Sign c time) ->
  let r := Async.run (perform a h) st in
  signing r = false
  /\ isSigning (Async.state r) = isSigning st
  /\ Async.pending (Async.resume env (fun _ => s) r) = false
  /\ (Async.pending r = true ->
      isSigning (Async.state (Async.resume env (fun _ => s) r)) = isSigning s).
Proof.
  intros N. destruct a as [| | |c|c time|]; cbn [perform].
  - unfold redirect. case_guard; cbn; repeat split; discriminate.
  - unfold balanceEffect.
    destruct (address_of _) as [addr|]; [|cbn; repeat split; discriminate].
    case_guard; [|cbn; repeat split; discriminate].
    destruct (fetchBalance_frame addr st env s) as (A & B & C & D). auto.
  - destruct (solanaAccount h) as [acc|]; [|cbn; repeat split; discriminate].
    destruct (fetchBalance_frame (address acc) st env s) as (A & B & C & D). auto.
  - destruct (account c h) as [acc|]; [|cbn; repeat split; discriminate].
    cbn. destruct (env _ _) as [[]|error]; cbn; auto.
  - now destruct (N c time).
  - cbn. destruct (env _ _) as [[]|error]; cbn; auto.
Qed.

Lemma signs_app (l1 l2 : list (Async.Result State unit)) :
  length (filter signing (l1 ++ l2))
  = (length (filter signing l1) + length (filter signing l2))%nat.
Proof. now rewrite filter_app, length_app. Qed.

Lemma tidy_invoke a h w : Tidy w -> Tidy (invoke a h w).
Proof.
  intros [F S]. unfold invoke.
  destruct (enabled a h (ui w)) eqn:E; [|now split].
  destruct (Async.pending (Async.run (perform a h) (ui w))) eqn:P.
  - (* the handler waits for a call *)
    destruct a as [| | |c|c time|].
    5: {
      cbn [perform] in *.
      destruct (sign_stops_or_waits c h time (ui w)) as [D | (_ & G & _ & I)];
        [rewrite D in P; discriminate|].
      assert (Z : isSigning (ui w) = false).
      { cbn [enabled] in E. apply Bool.andb_true_iff in E. destruct E as [_ E].
        destruct c; cbn in E; destruct (isSigning (ui w)); auto; discriminate. }
      split; cbn [inflight ui].
      - apply Forall_app. split; [exact F|]. constructor; [|constructor].
        left. now exists c, h, time, (ui w).
      - unfold signsInFlight in *; cbn [inflight]. rewrite signs_app, S, Z, I.
        cbn. now rewrite G. }
    all: match goal with
         | |- Tidy (mkWorld _ (_ ++ [Async.run (perform ?a ?hh) _])%list _) =>
             assert (N : forall c time, a <> Sign c time) by discriminate;
             destruct (other_action_frame a hh (ui w) (rejecting None) (ui w) N)
               as (G & I & _ & _);
             split; cbn [inflight ui];
             [ apply Forall_app; split; [exact F|]; constructor; [|constructor];
               right; now exists a, hh, (ui w)
             | unfold signsInFlight in *; cbn [inflight];
               rewrite signs_app, S, I; cbn [filter]; rewrite G; cbn; lia ]
         end.
  - (* the handler has finished *)
    split; cbn [inflight ui]; [exact F|].
    unfold signsInFlight in *; cbn [inflight]. rewrite S.
    destruct a as [| | |c|c time|].
    5: {
      cbn [perform] in *.
      destruct (sign_stops_or_waits c h time (ui w)) as [D | (Q & _)];
        [now rewrite D | rewrite Q in P; discriminate]. }
    all: match goal with
         | |- context [Async.run (perform ?a ?hh) _] =>
             assert (N : forall c time, a <> Sign c time) by discriminate;
             destruct (other_action_frame a hh (ui w) (rejecting None) (ui w) N)
               as (_ & I & _ & _);
             now rewrite I
         end.
Qed.

Lemma tidy_settle i env w : Tidy w -> Tidy (settle i env w).
Proof.
  intros [F S]. unfold settle.
  destruct (pick i (inflight w)) as [[r rest]|] eqn:P; [|now split].
  destruct (pick_split _ _ _ _ P) as (l1 & l2 & L & ->).
  unfold signsInFlight in S. rewrite L in F, S.
  apply Forall_app in F. destruct F as [F1 F]. inversion F as [|? ? T F2]; subst.
  rewrite signs_app in S. cbn [filter] in S.
  destruct T as [T | (a & h & st & N & -> & Q)].
  - destruct (sign_task_settles r env (ui w) T) as (G & D & I).
    rewrite G in S. cbn [length] in S. rewrite D.
    split; cbn [inflight ui].
    + apply Forall_app. now split.
    + unfold signsInFlight; cbn [inflight]. rewrite signs_app, I.
      destruct (isSigning (ui w)); lia.
  - destruct (other_action_frame a h st env (ui w) N) as (G & _ & D & I).
    rewrite G in S. rewrite D.
    split; cbn [inflight ui].
    + apply Forall_app. now split.
    + unfold signsInFlight; cbn [inflight]. rewrite signs_app, (I Q). exact S.
Qed.

Lemma reachable_tidy w : Reachable w -> Tidy w.
Proof.
  induction 1 as [|w ev R IH].
  - split; [constructor | reflexivity].
  - destruct ev; [now apply tidy_invoke | now apply tidy_settle].
Qed.

(** X16.  Whatever actions are taken on the dashboard, at whatever renders,
    and in whatever order the calls settle, at most one sign request is
    outstanding, over both chains together; the signing flag is up exactly
    when one is, and then the sign button of neither card starts another. *)
Theorem one_sign_request_in_flight (w : World) :
  Reachable w ->
  (signsInFlight w <= 1)%nat
  /\ (isSigning (ui w) = true <-> signsInFlight w = 1%nat)
  /\ (signsInFlight w = 1%nat ->
      forall c time h, invoke (Sign c time) h w = w).
Proof.
  intros R. destruct (reachable_tidy w R) as [_ S]. rewrite S.
  destruct (isSigning (ui w)) eqn:I; repeat split; try lia; try discriminate.
  intros _ c time h. unfold invoke. cbn [enabled].
  destruct c; cbn; rewrite I; cbn; now rewrite Bool.andb_false_r.
Qed.

Lemma one_sign_request_witness :
  signsInFlight (invoke (Sign Ethereum 2) bothChains
                   (invoke Refresh bothChains
                      (invoke (Sign Solana 1) bothChains start)))
  = 1%nat.
Proof.
  assert (R : Reachable (invoke (Sign Ethereum 2) bothChains
                           (invoke Refresh bothChains
                              (invoke (Sign Solana 1) bothChains start)))).
  { exact (reach_step _ (Invoke (Sign Ethereum 2) bothChains)
             (reach_step _ (Invoke Refresh bothChains)
                (reach_step _ (Invoke (Sign Solana 1) bothChains) reach_start))). }
  destruct (one_sign_request_in_flight _ R) as (_ & E & _).
  apply E. reflexivity.
Defined.

Lemma invoke_raises_no_alert a h st :
  alerts (Async.trace (Async.run (perform a h) st)) = [].
Proof.
  destruct a as [| | |c|c time|]; cbn [perform].
  - unfold redirect. case_guard; reflexivity.
  - unfold balanceEffect. destruct (address_of _) as [addr|]; [|reflexivity].
    case_guard; reflexivity.
  - destruct (solanaAccount h); reflexivity.
  - destruct (account c h); reflexivity.
  - destruct (sign_stops_or_waits c h time st) as [D | (_ & _ & T & _)];
      [now rewrite D | now rewrite T].
  - reflexivity.
Qed.

Lemma sign_task_alerts r env s :
  SignTask r ->
  Forall decent (alerts (Async.trace (Async.resume env (fun _ => s) r))).
Proof.
  intros (c & h & time & st & -> & P).
  assert (F : forall error,
             Forall decent
               (alerts (Async.trace
                          (Async.run (Async.try_finally (signFailed error)
                                                        (setIsSigning false)) s)))).
  { intros error. unfold signFailed.
    destruct (JS.message_of error) as [m|]; cbn [JS.opt_includes JS.not_ JS.or_else].
    - destruct (JS.includes m "cancelled") eqn:I; cbn; [constructor|].
      constructor; [|constructor]. unfold decent; cbn [fst snd]. intros _.
      destruct m as [|x m]; (split; [discriminate|]); [reflexivity | exact I].
    - cbn. constructor; [|constructor]. unfold decent; cbn [fst snd]. intros _.
      split; [discriminate | reflexivity]. }
  revert P. destruct c; cbn [handleSign];
    unfold handleSignSolanaMessage, handleSignEthereumMessage.
  - case_guard; [discriminate|]. intros _. cbn.
    destruct (env _ _) as [sig|error]; [|exact (F error)].
    cbn. constructor; [|constructor]. unfold decent; cbn [fst]. discriminate.
  - destruct (ethereumAccount h) as [acc|].
    + case_guard; [discriminate|]. intros _. cbn.
      destruct (env _ _) as [sig|error]; [|exact (F error)].
      cbn. constructor; [|constructor]. unfold decent; cbn [fst]. discriminate.
    + cbn [address_of option_map JS.truthy negb].
      rewrite Bool.orb_true_r. discriminate.
Qed.

Lemma other_task_alerts r env s :
  OtherTask r ->
  Forall decent (alerts (Async.trace (Async.resume env (fun _ => s) r))).
Proof.
  intros (a & h & st & N & -> & P). revert P.
  destruct a as [| | |c|c time|]; cbn [perform].
  - unfold redirect. case_guard; discriminate.
  - unfold balanceEffect. destruct (address_of _) as [addr|]; [|discriminate].
    case_guard; [|discriminate]. intros _. cbn.
    destruct (env _ _); cbn; constructor.
  - destruct (solanaAccount h) as [acc|]; [|discriminate]. intros _. cbn.
    destruct (env _ _); cbn; constructor.
  - destruct (account c h) as [acc|]; [|discriminate]. intros _. cbn.
    destruct (env _ _) as [[]|error]; cbn; [|constructor].
    constructor; [|constructor]. unfold decent; cbn [fst]. discriminate.
  - now destruct (N c time).
  - intros _. cbn. destruct (env _ _) as [[]|error]; cbn; constructor.
Qed.

(** X17.  Whatever happens on the dashboard, an alert titled "Error" never
    has an empty text and never carries a message containing "cancelled":
    a cancelled signature is not reported to the user, and a failure without
    a message is reported with a text. *)
Theorem dashboard_never_reports_a_cancellation (w : World) :
  Reachable w -> Forall decent (alerts (shown w)).
Proof.
  induction 1 as [|w ev R IH]; [constructor|].
  pose proof (reachable_tidy w R) as [F _].
  destruct ev as [a h|i env]; cbn [step].
  - unfold invoke. destruct (enabled a h (ui w)); [|exact IH].
    cbn [shown]. rewrite alerts_app, invoke_raises_no_alert, app_nil_r. exact IH.
  - unfold settle.
    destruct (pick i (inflight w)) as [[r rest]|] eqn:P; [|exact IH].
    destruct (pick_split _ _ _ _ P) as (l1 & l2 & L & _).
    rewrite L in F. apply Forall_app in F. destruct F as [_ F].
    inversion F as [|? ? T _]; subst.
    cbn [shown]. rewrite alerts_app. apply Forall_app. split; [exact IH|].
    destruct T; [now apply sign_task_alerts | now apply other_task_alerts].
Qed.

Lemma dashboard_alerts_witness :
  Forall decent
    (alerts (shown (settle 0 (rejecting (thrown (Some "User cancelled")))
                      (invoke (Sign Solana 1) bothChains start)))).
Proof.
  apply dashboard_never_reports_a_cancellation.
  exact (reach_step _ (Settle 0 (rejecting (thrown (Some "User cancelled"))))
           (reach_step _ (Invoke (Sign Solana 1) bothChains) reach_start)).
Defined.

End OneSignRequest.
